(** * ROI report for Google SOAR: a shallow embedding of the two scripts

    [roi-report-poc.py] and [roi-report-seaborn.py] query a SOAR
    case-management API and add up, per playbook name, the minutes of analyst
    time saved.  This file embeds the two scripts as functions over an
    explicit record of the module's globals and proves what the aggregation,
    the case lister, the start-up check and the multi-day loop do.

    Modelling choices:
    - a Python [dict] is a [gmap]; its keys are the hashable values a JSON
      payload can deliver ([None], integers, strings; [True] and [False] are
      the keys [1] and [0], as in Python);
    - Python integers are [Z]; JSON numbers are integers (no floating point);
    - an uncaught exception is an outcome [inl e]; the globals at the time of
      the raise are kept, so that what was mutated before it is visible;
    - the remote service is a pair of functions giving the response to a
      request (it always answers: connection errors are not modelled, nor
      are the URL, the headers and the filters of a request, which the
      scripts never inspect); every request and every line printed is
      appended to a trace;
    - instants are microseconds since the epoch (UTC); their ISO-8601
      rendering is not modelled. *)

From stdpp Require Import base gmap strings list pretty.
From Stdlib Require Import ZArith Lia.

Local Open Scope Z_scope.
Set Warnings "-register-all".

(** ** JSON values, as delivered by [response.json()] *)

Inductive json : Type :=
| JNull
| JBool (b : bool)
| JNum (n : Z)
| JStr (s : string)
| JArr (xs : list json)
| JObj (fields : list (string * json)).

(** Exceptions the scripts can raise.  [SystemExit] is not an [Exception]. *)
Inductive exn : Type :=
| KeyError
| TypeError
| JSONDecodeError
| SystemExit (code : Z).

Definition is_Exception (e : exn) : bool :=
  match e with SystemExit _ => false | _ => true end.

Definition is_KeyError (e : exn) : bool :=
  match e with KeyError => true | _ => false end.

(** Hashable Python values that can be keys of the two dictionaries. *)
Inductive key : Type :=
| KNone
| KInt (n : Z)
| KStr (s : string).

Global Instance key_eq_dec : EqDecision key.
Proof. solve_decision. Defined.

Definition key_to_sum (k : key) : unit + (Z + string) :=
  match k with
  | KNone => inl tt
  | KInt n => inr (inl n)
  | KStr s => inr (inr s)
  end.

Definition key_of_sum (x : unit + (Z + string)) : key :=
  match x with
  | inl _ => KNone
  | inr (inl n) => KInt n
  | inr (inr s) => KStr s
  end.

Global Instance key_countable : Countable key.
Proof.
  apply (inj_countable' key_to_sum key_of_sum).
  intros []; reflexivity.
Defined.

(** A dictionary from playbook names to minutes. *)
Abbreviation pydict := (gmap key Z).

(** [hash(v)]: lists and dicts are unhashable. *)
Definition hash (v : json) : exn + key :=
  match v with
  | JNull => inr KNone
  | JBool b => inr (KInt (if b then 1 else 0))
  | JNum n => inr (KInt n)
  | JStr s => inr (KStr s)
  | JArr _ => inl TypeError
  | JObj _ => inl TypeError
  end.

Fixpoint assoc (k : string) (fields : list (string * json)) : option json :=
  match fields with
  | [] => None
  | (k', v) :: rest => if decide (k' = k) then Some v else assoc k rest
  end.

(** [o[k]] for a string [k]: only a dict can be subscripted by a string. *)
Definition getitem (o : json) (k : string) : exn + json :=
  match o with
  | JObj fields =>
      match assoc k fields with
      | Some v => inr v
      | None => inl KeyError
      end
  | _ => inl TypeError
  end.

(** The elements a [for] loop or a comprehension draws from a value. *)
Definition iter (o : json) : exn + list json :=
  match o with
  | JArr xs => inr xs
  | JObj fields => inr (map (fun kv => JStr (fst kv)) fields)
  | JStr s => inr (map (fun c => JStr (String c EmptyString)) (String.list_ascii_of_string s))
  | _ => inl TypeError
  end.

(** ** The remote service and the trace of effects *)

Record response : Type := {
  status_code : Z;
  text : string;
  body : option json  (* [None]: the body is not JSON, [response.json()] raises *)
}.

Inductive event : Type :=
| HttpPost (start_time end_time : Z)
| HttpGet (case_id : json)
| Stdout (s : string)
| Stderr (s : string)
| PrettyPrinted (d : pydict)
| Sleep.

Definition is_network (e : event) : bool :=
  match e with
  | HttpPost _ _ | HttpGet _ => true
  | _ => false
  end.

(** ** The module's globals *)

Record globals : Type := {
  playbook_time_def_map : pydict;
  startTime : Z;
  endTime : Z;
  roi_counts : pydict;
  trace : list event
}.

Definition set_roi_counts (d : pydict) (g : globals) : globals :=
  {| playbook_time_def_map := playbook_time_def_map g;
     startTime := startTime g; endTime := endTime g;
     roi_counts := d; trace := trace g |}.

Definition set_window (s e : Z) (g : globals) : globals :=
  {| playbook_time_def_map := playbook_time_def_map g;
     startTime := s; endTime := e;
     roi_counts := roi_counts g; trace := trace g |}.

Definition emit (ev : event) (g : globals) : globals :=
  {| playbook_time_def_map := playbook_time_def_map g;
     startTime := startTime g; endTime := endTime g;
     roi_counts := roi_counts g; trace := trace g ++ [ev] |}.

(** ** Statements: globals in, globals and a value or an exception out *)

Definition M (A : Type) : Type := globals → globals * (exn + A).

Definition ret {A} (a : A) : M A := λ g, (g, inr a).

Definition bind {A B} (m : M A) (k : A → M B) : M B :=
  λ g, match m g with
       | (g', inr a) => k a g'
       | (g', inl e) => (g', inl e)
       end.

Definition raise {A} (e : exn) : M A := λ g, (g, inl e).

Definition lift {A} (r : exn + A) : M A := λ g, (g, r).

(** [try: body  except <handles>: handler] *)
Definition try_except {A} (body : M A) (handles : exn → bool) (handler : M A) : M A :=
  λ g, match body g with
       | (g', inl e) => if handles e then handler g' else (g', inl e)
       | r => r
       end.

Declare Scope py_scope.
Delimit Scope py_scope with py.
Notation "'let!' x ':=' m 'in' k" := (bind m (λ x, k))
  (at level 10, x name, m at level 100, k at level 200) : py_scope.
Notation "m ';;;' k" := (bind m (λ _, k))
  (at level 100, k at level 200, right associativity) : py_scope.
Local Open Scope py_scope.

(** [for x in l: body x] *)
Fixpoint for_each {A} (l : list A) (body : A → M unit) : M unit :=
  match l with
  | [] => ret tt
  | x :: rest => body x ;;; for_each rest body
  end.

(** [[f(x) for x in l]], evaluated left to right; the first exception wins. *)
Fixpoint comprehension {A B} (f : A → exn + B) (l : list A) : exn + list B :=
  match l with
  | [] => inr []
  | x :: rest =>
      match f x with
      | inl e => inl e
      | inr y =>
          match comprehension f rest with
          | inl e => inl e
          | inr ys => inr (y :: ys)
          end
      end
  end.

(** [for result in results: case_id_list.append(result['id'])] *)
Fixpoint append_ids (results : list json) (case_id_list : list json) : exn + list json :=
  match results with
  | [] => inr case_id_list
  | result :: rest =>
      match getitem result "id" with
      | inl e => inl e
      | inr id => append_ids rest (case_id_list ++ [id])
      end
  end.

Definition print (s : string) : M unit := λ g, (emit (Stdout s) g, inr tt).
Definition print_stderr (s : string) : M unit := λ g, (emit (Stderr s) g, inr tt).
Definition pprint_roi_counts : M unit := λ g, (emit (PrettyPrinted (roi_counts g)) g, inr tt).

(** Dictionary primitives on the two global dictionaries. *)

(** [pb in roi_counts] *)
Definition roi_contains (pb : json) : M bool :=
  λ g, match hash pb with
       | inl e => (g, inl e)
       | inr k => (g, inr (bool_decide (is_Some (roi_counts g !! k))))
       end.

(** [roi_counts[pb]] as an expression *)
Definition roi_getitem (pb : json) : M Z :=
  λ g, match hash pb with
       | inl e => (g, inl e)
       | inr k =>
           match roi_counts g !! k with
           | Some v => (g, inr v)
           | None => (g, inl KeyError)
           end
       end.

(** [roi_counts[pb] = v] *)
Definition roi_setitem (pb : json) (v : Z) : M unit :=
  λ g, match hash pb with
       | inl e => (g, inl e)
       | inr k => (set_roi_counts (<[k := v]> (roi_counts g)) g, inr tt)
       end.

(** [playbook_time_def_map[pb]] *)
Definition table_getitem (pb : json) : M Z :=
  λ g, match hash pb with
       | inl e => (g, inl e)
       | inr k =>
           match playbook_time_def_map g !! k with
           | Some v => (g, inr v)
           | None => (g, inl KeyError)
           end
       end.

Definition unconfigured : string := "__unconfigured__".

(** ** The Minutes Aggregator *)

(** The body of [for pb in playbook_attached_list:], lines 133-142 of
    [roi-report-poc.py] (132-141 of [roi-report-seaborn.py]). *)
Definition add_playbook (pb : json) : M unit :=
  try_except
    (let! present := roi_contains pb in
     if (present : bool) then
       (* roi_counts[pb] += playbook_time_def_map[pb] *)
       let! old := roi_getitem pb in
       let! minutes := table_getitem pb in
       roi_setitem pb (old + minutes)
     else
       try_except
         (let! minutes := table_getitem pb in
          roi_setitem pb minutes)
         is_KeyError
         (let! minutes := table_getitem (JStr unconfigured) in
          roi_setitem pb minutes))
    is_Exception
    (* roi_counts[pb] += 999 *)
    (let! old := roi_getitem pb in
     roi_setitem pb (old + 999)).

Section Network.

(** The responses of the remote service: to the case search for a window, and
    to the detail request for a case identifier. *)
Variable search_response : Z → Z → response.
Variable detail_response : json → response.

Definition requests_post : M response :=
  λ g, (emit (HttpPost (startTime g) (endTime g)) g,
        inr (search_response (startTime g) (endTime g))).

Definition requests_get (case_id : json) : M response :=
  λ g, (emit (HttpGet case_id) g, inr (detail_response case_id)).

(** [response.json()] *)
Definition response_json (r : response) : M json :=
  match body r with
  | Some j => ret j
  | None => raise JSONDecodeError
  end.

(** [f"Error: {response.status_code} - {response.text}"] *)
Definition error_line (r : response) : string :=
  "Error: " +:+ pretty (status_code r) +:+ " - " +:+ text r.

(** [get_case_ids], the Case Lister (the same text in both scripts). *)
Definition get_case_ids : M (list json) :=
  let! response := requests_post in
  let case_id_list := [] in
  if decide (status_code response = 200) then
    let! json_data := response_json response in
    let! results := lift (getitem json_data "results") in
    let! results := lift (iter results) in
    lift (append_ids results case_id_list)
  else
    print (error_line response) ;;;
    ret case_id_list.

(** [sum_hours_saved_by_case_id] of [roi-report-poc.py]. *)
Definition sum_hours_saved_by_case_id (case_id : json) : M unit :=
  let! response := requests_get case_id in
  if decide (status_code response = 200) then
    let! json_data := response_json response in
    let! alert_cards := lift (getitem json_data "alertCards") in
    let! alert_cards := lift (iter alert_cards) in
    let! playbook_attached_list :=
      lift (comprehension (λ alert_card, getitem alert_card "playbookAttached") alert_cards) in
    for_each playbook_attached_list add_playbook ;;;
    print "" ;;;
    pprint_roi_counts
  else
    print (error_line response).

(** [sum_minutes_saved_by_case_id] of [roi-report-seaborn.py]: the same
    statements under another name. *)
Definition sum_minutes_saved_by_case_id (case_id : json) : M unit :=
  let! response := requests_get case_id in
  if decide (status_code response = 200) then
    let! json_data := response_json response in
    let! alert_cards := lift (getitem json_data "alertCards") in
    let! alert_cards := lift (iter alert_cards) in
    let! playbook_attached_list :=
      lift (comprehension (λ alert_card, getitem alert_card "playbookAttached") alert_cards) in
    for_each playbook_attached_list add_playbook ;;;
    print "" ;;;
    pprint_roi_counts
  else
    print (error_line response).

(** *** [roi-report-poc.py], from the report window to the final report *)

Definition newline : string := String (Ascii.ascii_of_nat 10) EmptyString.

(** ["\n\n\nHours saved by playbook:\n"] *)
Definition report_header : string :=
  newline +:+ newline +:+ newline +:+ "Hours saved by playbook:" +:+ newline.

(** [if __name__ == '__main__':] of [roi-report-poc.py]. *)
Definition main : M unit :=
  let! case_ids := get_case_ids in
  for_each case_ids sum_hours_saved_by_case_id ;;;
  print report_header ;;;
  pprint_roi_counts.

(** *** [roi-report-seaborn.py], the loop over the last days *)

(** [datetime.datetime.utcnow()] as read in iteration [i]. *)
Variable utcnow : nat → Z.

Definition usec_per_day : Z := 86400000000.

(** [.replace(hour=0, minute=0, second=0, microsecond=0)] *)
Definition midnight (now : Z) : Z := now - now `mod` usec_per_day.

(** [datetime.timedelta(days=n)] *)
Definition timedelta_days (n : Z) : Z := n * usec_per_day.

(** Lines 156-157: the window of iteration [i] as (start_date, end_date). *)
Definition day_window (i : nat) : Z * Z :=
  let end_date := midnight (utcnow i) in
  let start_date := end_date - timedelta_days (Z.of_nat i + 1) in
  (start_date, end_date).

(** Lines 170-174: one day's totals added into [total_minutes_saved].  The
    loop visits every item of the day's dictionary once. *)
Definition update_total (day_counts total_minutes_saved : pydict) : pydict :=
  map_fold
    (λ playbook minutes (total : pydict),
       match total !! playbook with
       | Some old => <[playbook := old + minutes]> total
       | None => <[playbook := minutes]> total
       end)
    total_minutes_saved day_counts.

(** The two dictionaries local to the loop.  [all_roi_counts] is keyed by
    [start_date.strftime("%Y-%m-%d")]; a start date is a midnight, so the
    instant itself stands for its rendering. *)
Record report : Type := {
  all_roi_counts : gmap Z pydict;
  total_minutes_saved : pydict
}.

Definition empty_report : report :=
  {| all_roi_counts := ∅; total_minutes_saved := ∅ |}.

(** Lines 156-165: the window is set, [roi_counts] is reset and every case of
    the window is aggregated; the value is the day's [roi_counts]. *)
Definition run_day (i : nat) : M pydict :=
  let '(start_date, end_date) := day_window i in
  (λ g, (set_roi_counts ∅ (set_window start_date end_date g), inr tt)) ;;;
  let! case_ids := get_case_ids in
  for_each case_ids
    (λ case_id, (λ g, (emit Sleep g, inr tt)) ;;; sum_minutes_saved_by_case_id case_id) ;;;
  (λ g, (g, inr (roi_counts g))).

(** Lines 167-174. *)
Definition record_day (i : nat) (day_counts : pydict) (acc : report) : report :=
  {| all_roi_counts := <[fst (day_window i) := day_counts]> (all_roi_counts acc);
     total_minutes_saved := update_total day_counts (total_minutes_saved acc) |}.

(** [for i in range(n):] with the body of lines 155-174. *)
Fixpoint day_loop (days : list nat) (acc : report) : M report :=
  match days with
  | [] => ret acc
  | i :: rest =>
      let! day_counts := run_day i in
      day_loop rest (record_day i day_counts acc)
  end.

(** The data part of [if __name__ == '__main__':] of
    [roi-report-seaborn.py]; the charts and the printed summary that follow
    read the two dictionaries and change nothing. *)
Definition main_days (n : nat) : M report := day_loop (seq 0 n) empty_report.

Definition main_seaborn : M report := main_days 3.

End Network.

(** ** Start-up: the required environment variables *)

Definition required_env_vars : list string := ["APP_KEY"; "BASE_URL"]%string.

(** [[var for var in required_env_vars if os.environ.get(var) is None]] *)
Definition missing_vars (environ : gmap string string) : list string :=
  filter (λ var, environ !! var = None) required_env_vars.

(** [sep.join(l)] *)
Fixpoint join (sep : string) (l : list string) : string :=
  match l with
  | [] => ""
  | [x] => x
  | x :: rest => x +:+ sep +:+ join sep rest
  end.

Definition error_message (missing : list string) : string :=
  "Error: The following environment variables are missing: " +:+ join ", " missing.

(** Lines 56-62 of [roi-report-poc.py] (54-60 of [roi-report-seaborn.py]). *)
Definition check_environment (environ : gmap string string) : M unit :=
  match missing_vars environ with
  | [] => ret tt
  | _ :: _ =>
      print_stderr (error_message (missing_vars environ)) ;;;
      raise (SystemExit 1)
  end.

(** The table and the window written in [roi-report-poc.py]. *)
Definition poc_table : pydict :=
  <[KStr "Enrich Defender ATP Alerts" := 30]>
  (<[KStr "Enrich Falcon Alerts" := 5]>
  (<[KStr "Enrich FireEye Alerts" := 25]>
  (<[KStr "Enrich Rapid7  Alerts" := 60]>
  (<[KStr unconfigured := 10]> ∅)))).

(** 2024-09-01T00:00:00.000Z and 2024-09-08T00:00:00.000Z *)
Definition poc_startTime : Z := 1725148800000000.
Definition poc_endTime : Z := 1725753600000000.

(** The globals when the first statement runs: the operator's table and
    window, [roi_counts = {}], nothing printed or requested yet. *)
Definition initial_globals (table : pydict) (start_time end_time : Z) : globals :=
  {| playbook_time_def_map := table;
     startTime := start_time; endTime := end_time;
     roi_counts := ∅; trace := [] |}.

(** The whole of [roi-report-poc.py], run as a script. *)
Definition script_poc (search_response : Z → Z → response) (detail_response : json → response)
    (environ : gmap string string) : M unit :=
  check_environment environ ;;;
  main search_response detail_response.


(** The value of an outcome that is a normal return. *)
Definition from_inr {A} (outcome : exn + A) : option A :=
  match outcome with
  | inr a => Some a
  | inl _ => None
  end.

(** The exit status of the interpreter for an outcome. *)
Definition exit_code {A} (outcome : exn + A) : Z :=
  match outcome with
  | inr _ => 0
  | inl (SystemExit code) => code
  | inl _ => 1
  end.

(** * Definitions used in the statements *)

(** Every key of [d] is a key of [d'], with a value at least as large. *)
Definition totals_grow (d d' : pydict) : Prop :=
  ∀ k v, d !! k = Some v → ∃ v', d' !! k = Some v' ∧ v ≤ v'.

(** The minutes of the table are non-negative. *)
Definition nonneg_table (table : pydict) : Prop :=
  map_Forall (λ _ minutes, 0 ≤ minutes) table.

(** From [g] to [g'], [roi_counts] has only grown and the table is the same
    dictionary. *)
Definition kept (g g' : globals) : Prop :=
  totals_grow (roi_counts g) (roi_counts g') ∧
  playbook_time_def_map g' = playbook_time_def_map g.

(** A statement that, run on a non-negative table, ends in globals [kept]
    from those it started in, whether it returns or raises. *)
Definition keeps {A} (m : M A) : Prop :=
  ∀ g, nonneg_table (playbook_time_def_map g) → kept g (fst (m g)).

(** [roi_counts] after one increment for the key [k], when the table has the
    default key with value [d]; [add_playbook_after_increment] shows that the
    increment step computes it. *)
Definition after_increment (table : pydict) (d : Z) (roi : pydict) (k : key) : pydict :=
  match roi !! k with
  | Some v => <[k := v + default 999 (table !! k)]> roi
  | None => <[k := default d (table !! k)]> roi
  end.

(** How many of the processed cards name [P]. *)
Fixpoint occurrences (P : key) (ks : list key) : nat :=
  match ks with
  | [] => 0%nat
  | k :: rest => ((if decide (k = P) then 1 else 0) + occurrences P rest)%nat
  end.

(** The total the specification gives to [P]: the sum, over every processed
    card naming [P], of the table's value for [P], or of the default value
    when [P] is not a key of the table. *)
Fixpoint specified_total (table : pydict) (d : Z) (P : key) (ks : list key) : Z :=
  match ks with
  | [] => 0
  | k :: rest =>
      (if decide (k = P) then default d (table !! P) else 0)
      + specified_total table d P rest
  end.

(** A small service used in the examples: the table [{"A": 30,
    "__unconfigured__": 10}], a search that finds the cases 1 and 2, case 1
    with the alert cards naming ["A", "B"], case 2 with one card naming
    ["A"], and 404 for every other case. *)
Definition example_table : pydict :=
  <[KStr "A" := 30]> (<[KStr unconfigured := 10]> ∅).

Definition alert_card (pb : json) : json := JObj [("playbookAttached"%string, pb)].

Definition case_details (cards : list json) : response :=
  {| status_code := 200; text := "";
     body := Some (JObj [("alertCards"%string, JArr cards)]) |}.

Definition example_search_response (start_time end_time : Z) : response :=
  {| status_code := 200; text := "";
     body := Some (JObj [("results"%string,
                          JArr [JObj [("id"%string, JNum 1)]; JObj [("id"%string, JNum 2)]])]) |}.

Definition not_found : response :=
  {| status_code := 404; text := "Not Found"; body := None |}.

Definition example_detail_response (case_id : json) : response :=
  match case_id with
  | JNum 1 => case_details [alert_card (JStr "A"); alert_card (JStr "B")]
  | JNum 2 => case_details [alert_card (JStr "A")]
  | _ => not_found
  end.

Definition unavailable : response :=
  {| status_code := 503; text := "Service Unavailable"; body := None |}.

(** The window the specification gives to iteration [i]: one calendar day,
    from [i + 1] days to [i] days before today's midnight. *)
Definition specified_day_window (utcnow : nat → Z) (i : nat) : Z * Z :=
  (midnight (utcnow i) - timedelta_days (Z.of_nat i + 1),
   midnight (utcnow i) - timedelta_days (Z.of_nat i)).

(** The search requests of a run, in order. *)
Definition search_requests (tr : list event) : list (Z * Z) :=
  omap (λ ev, match ev with HttpPost s e => Some (s, e) | _ => None end) tr.

(** 2024-11-04T12:00:00Z *)
Definition noon_4_november_2024 : Z := 1730721600000000.

(** The value [roi_counts] has at line 167 in each iteration, in order. *)
Fixpoint daily_counts (search_response : Z → Z → response) (detail_response : json → response)
    (utcnow : nat → Z) (days : list nat) : M (list pydict) :=
  match days with
  | [] => ret []
  | i :: rest =>
      let! day_counts := run_day search_response detail_response utcnow i in
      let! others := daily_counts search_response detail_response utcnow rest in
      ret (day_counts :: others)
  end.

(** The sum over the days of the day's entry for [P], a day without an entry
    counting for 0. *)
Fixpoint day_sum (P : key) (counts : list pydict) : Z :=
  match counts with
  | [] => 0
  | day_counts :: rest => default 0 (day_counts !! P) + day_sum P rest
  end.

(** Lines 167-174 for every iteration, given the daily dictionaries. *)
Fixpoint record_days (utcnow : nat → Z) (days : list nat) (counts : list pydict)
    (acc : report) : report :=
  match days, counts with
  | i :: days', day_counts :: counts' =>
      record_days utcnow days' counts' (record_day utcnow i day_counts acc)
  | _, _ => acc
  end.

(** ** Definitions for the further properties *)

(** The detail requests of a run, in order. *)
Definition detail_requests (tr : list event) : list json :=
  omap (λ ev, match ev with HttpGet case_id => Some case_id | _ => None end) tr.

(** Events that only write to the terminal. *)
Definition is_output (ev : event) : bool :=
  match ev with
  | Stdout _ | Stderr _ | PrettyPrinted _ => true
  | _ => false
  end.

(** From [g] to [g'] nothing but [roi_counts] may differ. *)
Definition only_roi_counts_differs (g g' : globals) : Prop :=
  playbook_time_def_map g' = playbook_time_def_map g ∧
  startTime g' = startTime g ∧
  endTime g' = endTime g ∧
  trace g' = trace g.

(** What lines 129-131 draw from a response: the value of
    ['playbookAttached'] of every element of ['alertCards'], or the first
    exception on the way. *)
Definition payload_playbooks (r : response) : exn + list json :=
  match body r with
  | None => inl JSONDecodeError
  | Some json_data =>
      match getitem json_data "alertCards" with
      | inl e => inl e
      | inr alert_cards =>
          match iter alert_cards with
          | inl e => inl e
          | inr alert_cards =>
              comprehension (λ alert_card, getitem alert_card "playbookAttached") alert_cards
          end
      end
  end.

(** The dictionary keys of those values, when every one of them is
    hashable. *)
Definition payload_names (r : response) : exn + list key :=
  match payload_playbooks r with
  | inl e => inl e
  | inr pbs => comprehension hash pbs
  end.

(** The names a case contributes: those of its payload when the detail
    request is answered with 200, none otherwise. *)
Definition case_delivers (r : response) (ks : list key) : Prop :=
  if decide (status_code r = 200) then payload_names r = inr ks else ks = [].

(** The entry of [P] after [n] increments for [P], from the entry [before]:
    a new name starts at the table's value or the default [d], every later
    increment adds the table's value or 999. *)
Definition entry_after (table : pydict) (d : Z) (before : option Z) (P : key) (n : nat)
    : option Z :=
  match before, n with
  | Some v, _ => Some (v + Z.of_nat n * default 999 (table !! P))
  | None, O => None
  | None, S m => Some (default d (table !! P) + Z.of_nat m * default 999 (table !! P))
  end.

(** What lines 108-112 draw from a search response: the ['id'] of every
    element of ['results'], or the first exception on the way. *)
Definition search_ids (r : response) : exn + list json :=
  match body r with
  | None => inl JSONDecodeError
  | Some json_data =>
      match getitem json_data "results" with
      | inl e => inl e
      | inr results =>
          match iter results with
          | inl e => inl e
          | inr results => append_ids results []
          end
      end
  end.

(** An event a call of the aggregator may print: anything written to the
    terminal but the header of the final report. *)
Definition is_progress (ev : event) : Prop :=
  is_output ev = true ∧ ev ≠ Stdout report_header.

(** The sleeps of a run. *)
Definition sleeps (tr : list event) : list unit :=
  omap (λ ev, match ev with Sleep => Some tt | _ => None end) tr.

(** In a run of events, every detail request comes right after a sleep. *)
Fixpoint throttled (tr : list event) : bool :=
  match tr with
  | [] => true
  | Sleep :: rest =>
      match rest with
      | HttpGet _ :: rest' => throttled rest'
      | _ => throttled rest
      end
  | HttpGet _ :: _ => false
  | _ :: rest => throttled rest
  end.

(** * Properties *)

(** A closed, decidable statement settled by evaluating its decision
    procedure. *)
Ltac by_evaluation := refine (bool_decide_unpack _ _); vm_compute; exact I.

(** ** One increment step of the aggregator, case by case *)

Section AddPlaybook.

Context (g : globals) (pb : json) (k : key) (Hk : hash pb = inr k).

Lemma add_playbook_adds v t :
  roi_counts g !! k = Some v →
  playbook_time_def_map g !! k = Some t →
  add_playbook pb g = (set_roi_counts (<[k := v + t]> (roi_counts g)) g, inr tt).
Proof using Hk.
  intros Hroi Htab.
  unfold add_playbook, try_except, bind, roi_contains, roi_getitem, table_getitem, roi_setitem.
  rewrite Hk, Hroi. simpl. rewrite Hroi, Htab. reflexivity.
Qed.

Lemma add_playbook_penalty v :
  roi_counts g !! k = Some v →
  playbook_time_def_map g !! k = None →
  add_playbook pb g = (set_roi_counts (<[k := v + 999]> (roi_counts g)) g, inr tt).
Proof using Hk.
  intros Hroi Htab.
  unfold add_playbook, try_except, bind, roi_contains, roi_getitem, table_getitem, roi_setitem.
  rewrite Hk, Hroi. simpl. rewrite Hroi, Htab. simpl. rewrite Hroi. reflexivity.
Qed.

Lemma add_playbook_first t :
  roi_counts g !! k = None →
  playbook_time_def_map g !! k = Some t →
  add_playbook pb g = (set_roi_counts (<[k := t]> (roi_counts g)) g, inr tt).
Proof using Hk.
  intros Hroi Htab.
  unfold add_playbook, try_except, bind, roi_contains, roi_getitem, table_getitem, roi_setitem.
  rewrite Hk, Hroi. simpl. rewrite Htab. reflexivity.
Qed.

Lemma add_playbook_first_default d :
  roi_counts g !! k = None →
  playbook_time_def_map g !! k = None →
  playbook_time_def_map g !! KStr unconfigured = Some d →
  add_playbook pb g = (set_roi_counts (<[k := d]> (roi_counts g)) g, inr tt).
Proof using Hk.
  intros Hroi Htab Hdef.
  unfold add_playbook, try_except, bind, roi_contains, roi_getitem, table_getitem, roi_setitem.
  rewrite Hk, Hroi. simpl. rewrite Htab. simpl. rewrite Hdef. reflexivity.
Qed.

Lemma add_playbook_no_default :
  roi_counts g !! k = None →
  playbook_time_def_map g !! k = None →
  playbook_time_def_map g !! KStr unconfigured = None →
  add_playbook pb g = (g, inl KeyError).
Proof using Hk.
  intros Hroi Htab Hdef.
  unfold add_playbook, try_except, bind, roi_contains, roi_getitem, table_getitem, roi_setitem.
  rewrite Hk, Hroi. simpl. rewrite Htab. simpl. rewrite Hdef. simpl. rewrite Hroi. reflexivity.
Qed.

End AddPlaybook.

Lemma add_playbook_unhashable g pb e :
  hash pb = inl e → add_playbook pb g = (g, inl TypeError).
Proof.
  intros He.
  assert (e = TypeError) as -> by (destruct pb; simpl in He; congruence).
  unfold add_playbook, try_except, bind, roi_contains, roi_getitem.
  rewrite He. reflexivity.
Qed.

(** ** What every statement of the aggregator keeps *)

Lemma totals_grow_refl d : totals_grow d d.
Proof. intros k v Hv. exists v. split; [done | lia]. Qed.

Lemma totals_grow_trans d1 d2 d3 :
  totals_grow d1 d2 → totals_grow d2 d3 → totals_grow d1 d3.
Proof.
  intros H12 H23 k v Hv.
  destruct (H12 k v Hv) as (v2 & Hv2 & Hle2).
  destruct (H23 k v2 Hv2) as (v3 & Hv3 & Hle3).
  exists v3. split; [done | lia].
Qed.

Lemma totals_grow_insert_fresh d k x :
  d !! k = None → totals_grow d (<[k := x]> d).
Proof.
  intros Hnone k' v Hv. exists v. split; [| lia].
  rewrite lookup_insert_ne; [done | congruence].
Qed.

Lemma totals_grow_insert_larger d k v x :
  d !! k = Some v → v ≤ x → totals_grow d (<[k := x]> d).
Proof.
  intros Hsome Hle k' v' Hv'.
  destruct (decide (k = k')) as [<- | Hne].
  - exists x. rewrite lookup_insert_eq. split; [done | congruence].
  - exists v'. rewrite lookup_insert_ne by done. split; [done | lia].
Qed.

Lemma kept_refl g : kept g g.
Proof. split; [apply totals_grow_refl | done]. Qed.

Lemma kept_trans g1 g2 g3 : kept g1 g2 → kept g2 g3 → kept g1 g3.
Proof.
  intros [Hr12 Ht12] [Hr23 Ht23]. split.
  - by eapply totals_grow_trans.
  - congruence.
Qed.

Lemma kept_emit g ev : kept g (emit ev g).
Proof. split; [apply totals_grow_refl | done]. Qed.

Lemma keeps_ret {A} (a : A) : keeps (ret a).
Proof. intros g _. apply kept_refl. Qed.

Lemma keeps_raise {A} e : keeps (@raise A e).
Proof. intros g _. apply kept_refl. Qed.

Lemma keeps_lift {A} (r : exn + A) : keeps (lift r).
Proof. intros g _. apply kept_refl. Qed.

Lemma keeps_print s : keeps (print s).
Proof. intros g _. apply kept_emit. Qed.

Lemma keeps_pprint_roi_counts : keeps pprint_roi_counts.
Proof. intros g _. apply kept_emit. Qed.

Lemma keeps_bind {A B} (m : M A) (f : A → M B) :
  keeps m → (∀ a, keeps (f a)) → keeps (bind m f).
Proof.
  intros Hm Hf g Hnn. unfold bind.
  specialize (Hm g Hnn). destruct (m g) as [g' [e | a]]; simpl in *; [done |].
  eapply kept_trans; [exact Hm |].
  apply Hf. destruct Hm as [_ ->]. exact Hnn.
Qed.

Lemma keeps_for_each {A} (l : list A) (body : A → M unit) :
  (∀ x, keeps (body x)) → keeps (for_each l body).
Proof.
  intros Hbody. induction l as [| x rest IH]; simpl.
  - apply keeps_ret.
  - apply keeps_bind; [apply Hbody | intros _; exact IH].
Qed.

Lemma keeps_add_playbook pb : keeps (add_playbook pb).
Proof.
  intros g Hnn.
  destruct (hash pb) as [e | k] eqn:Hk.
  { rewrite (add_playbook_unhashable g pb e Hk). apply kept_refl. }
  destruct (roi_counts g !! k) as [v |] eqn:Hroi;
    destruct (playbook_time_def_map g !! k) as [t |] eqn:Htab.
  - rewrite (add_playbook_adds g pb k Hk v t Hroi Htab). split; [| done]. simpl.
    eapply totals_grow_insert_larger; [done |].
    pose proof (Hnn k t Htab) as Ht. simpl in Ht. lia.
  - rewrite (add_playbook_penalty g pb k Hk v Hroi Htab). split; [| done]. simpl.
    eapply totals_grow_insert_larger; [done | lia].
  - rewrite (add_playbook_first g pb k Hk t Hroi Htab). split; [| done]. simpl.
    by apply totals_grow_insert_fresh.
  - destruct (playbook_time_def_map g !! KStr unconfigured) as [d |] eqn:Hdef.
    + rewrite (add_playbook_first_default g pb k Hk d Hroi Htab Hdef). split; [| done]. simpl.
      by apply totals_grow_insert_fresh.
    + rewrite (add_playbook_no_default g pb k Hk Hroi Htab Hdef). apply kept_refl.
Qed.

Lemma keeps_sum_hours_saved_by_case_id detail_response case_id :
  keeps (sum_hours_saved_by_case_id detail_response case_id).
Proof.
  unfold sum_hours_saved_by_case_id.
  apply keeps_bind; [intros g _; apply kept_emit |].
  intros r. case_decide.
  - apply keeps_bind.
    { unfold response_json. destruct (body r); [apply keeps_ret | apply keeps_raise]. }
    intros json_data. apply keeps_bind; [apply keeps_lift |].
    intros cards. apply keeps_bind; [apply keeps_lift |].
    intros cards'. apply keeps_bind; [apply keeps_lift |].
    intros pbs. apply keeps_bind.
    { apply keeps_for_each, keeps_add_playbook. }
    intros _. apply keeps_bind; [apply keeps_print |].
    intros _. apply keeps_pprint_roi_counts.
  - apply keeps_print.
Qed.

(** ** The aggregation loop in closed form *)

Lemma set_roi_counts_same g : set_roi_counts (roi_counts g) g = g.
Proof. by destruct g. Qed.

Lemma add_playbook_after_increment g pb k d :
  hash pb = inr k →
  playbook_time_def_map g !! KStr unconfigured = Some d →
  add_playbook pb g =
    (set_roi_counts (after_increment (playbook_time_def_map g) d (roi_counts g) k) g, inr tt).
Proof.
  intros Hk Hdef. unfold after_increment.
  destruct (roi_counts g !! k) as [v |] eqn:Hroi;
    destruct (playbook_time_def_map g !! k) as [t |] eqn:Htab; simpl.
  - by apply add_playbook_adds.
  - by apply add_playbook_penalty.
  - by apply add_playbook_first.
  - by apply add_playbook_first_default.
Qed.

Lemma for_each_add_playbook pbs : ∀ ks g d,
  Forall2 (λ pb k, hash pb = inr k) pbs ks →
  playbook_time_def_map g !! KStr unconfigured = Some d →
  for_each pbs add_playbook g =
    (set_roi_counts (foldl (after_increment (playbook_time_def_map g) d) (roi_counts g) ks) g,
     inr tt).
Proof.
  induction pbs as [| pb pbs IH]; intros ks g d Hks Hdef.
  - apply Forall2_nil_inv_l in Hks as ->. simpl.
    by rewrite set_roi_counts_same.
  - apply Forall2_cons_inv_l in Hks as (k & ks' & Hk & Hks' & ->).
    simpl. unfold bind at 1.
    rewrite (add_playbook_after_increment g pb k d Hk Hdef).
    rewrite (IH ks' (set_roi_counts _ g) d Hks' Hdef). reflexivity.
Qed.

Lemma specified_total_occurrences table d P ks :
  specified_total table d P ks = Z.of_nat (occurrences P ks) * default d (table !! P).
Proof.
  induction ks as [| k rest IH]; simpl; [lia |].
  rewrite IH. case_decide; lia.
Qed.

Lemma lookup_after_increment table d roi k P :
  after_increment table d roi k !! P =
    if decide (k = P) then
      match roi !! P with
      | Some v => Some (v + default 999 (table !! P))
      | None => Some (default d (table !! P))
      end
    else roi !! P.
Proof.
  unfold after_increment. case_decide as Hkp.
  - subst k. destruct (roi !! P); by rewrite lookup_insert_eq.
  - destruct (roi !! k); by rewrite lookup_insert_ne.
Qed.

(** The entry of [P] after the loop, from any starting dictionary: the first
    increment of a new name takes the table's value or the default, every
    later one takes the table's value or 999. *)
Lemma lookup_foldl_after_increment table d ks : ∀ roi P,
  foldl (after_increment table d) roi ks !! P =
    match roi !! P, occurrences P ks with
    | Some v, n => Some (v + Z.of_nat n * default 999 (table !! P))
    | None, O => None
    | None, S n => Some (default d (table !! P) + Z.of_nat n * default 999 (table !! P))
    end.
Proof.
  induction ks as [| k rest IH]; intros roi P; simpl.
  - destruct (roi !! P); [f_equal; lia | done].
  - rewrite IH, lookup_after_increment. case_decide as Hkp; simpl.
    + destruct (roi !! P); f_equal; lia.
    + destruct (roi !! P); done.
Qed.

(** The loop started on an empty [roi_counts]: a name never processed has no
    entry; a name of the table has the sum the specification gives; a name
    that is not in the table has the default once and 999 for every later
    occurrence. *)
Lemma aggregation_loop_closed_form g pbs ks d P :
  Forall2 (λ pb k, hash pb = inr k) pbs ks →
  playbook_time_def_map g !! KStr unconfigured = Some d →
  roi_counts g = ∅ →
  let g' := fst (for_each pbs add_playbook g) in
  snd (for_each pbs add_playbook g) = inr tt ∧
  roi_counts g' !! P =
    match occurrences P ks, playbook_time_def_map g !! P with
    | O, _ => None
    | S n, Some t => Some (specified_total (playbook_time_def_map g) d P ks)
    | S n, None => Some (d + 999 * Z.of_nat n)
    end.
Proof.
  intros Hks Hdef Hempty. simpl.
  rewrite (for_each_add_playbook pbs ks g d Hks Hdef). simpl. split; [done |].
  rewrite lookup_foldl_after_increment, Hempty, lookup_empty.
  rewrite specified_total_occurrences.
  destruct (occurrences P ks) as [| n]; [done |].
  destruct (playbook_time_def_map g !! P) as [t |]; simpl; f_equal; lia.
Qed.

(** The final dictionary does not depend on the order of the cards. *)
Lemma occurrences_Permutation P ks ks' :
  ks ≡ₚ ks' → occurrences P ks = occurrences P ks'.
Proof.
  induction 1; simpl; repeat case_decide; lia.
Qed.

Lemma aggregation_loop_order_independent table d ks ks' roi :
  ks ≡ₚ ks' →
  foldl (after_increment table d) roi ks = foldl (after_increment table d) roi ks'.
Proof.
  intros Hperm. apply map_eq. intros P.
  rewrite !lookup_foldl_after_increment.
  by rewrite (occurrences_Permutation P ks ks' Hperm).
Qed.

(** The aggregator of [roi-report-seaborn.py] is the one of
    [roi-report-poc.py]. *)
Lemma sum_minutes_saved_by_case_id_eq detail_response case_id :
  sum_minutes_saved_by_case_id detail_response case_id =
  sum_hours_saved_by_case_id detail_response case_id.
Proof. reflexivity. Qed.

(** The sample output in the header of the two scripts is what the loop
    gives on the table of the scripts for 7 and 4 executions of two playbooks
    that are not in the table and 14, 1, 35 and 64 executions of the four
    that are: 6004 = 10 + 6 * 999 and 3007 = 10 + 3 * 999. *)
Example header_sample_output :
  let pbs :=
    replicate 7 (JStr "Copy of Enrich Falcon Alerts") ++
    replicate 4 (JStr "Enrich Defender 365 Alerts") ++
    replicate 14 (JStr "Enrich Defender ATP Alerts") ++
    replicate 1 (JStr "Enrich Falcon Alerts") ++
    replicate 35 (JStr "Enrich FireEye Alerts") ++
    replicate 64 (JStr "Enrich Rapid7  Alerts") in
  let run := for_each pbs add_playbook (initial_globals poc_table poc_startTime poc_endTime) in
  snd run = inr tt ∧
  roi_counts (fst run) =
    <[KStr "Copy of Enrich Falcon Alerts" := 6004]>
    (<[KStr "Enrich Defender 365 Alerts" := 3007]>
    (<[KStr "Enrich Defender ATP Alerts" := 420]>
    (<[KStr "Enrich Falcon Alerts" := 5]>
    (<[KStr "Enrich FireEye Alerts" := 875]>
    (<[KStr "Enrich Rapid7  Alerts" := 3840]> ∅))))).
Proof.
  intros pbs run. split; [vm_compute; reflexivity | by_evaluation].
Qed.

(** ** The aggregator on whole cases *)

(** C1 (defect of the code).  The specification gives every processed card
    naming a playbook that is not in the table the default value.  On the
    table [{"__unconfigured__": 10}] and two cards naming ["B"], the loop
    completes and leaves 1009 for ["B"] (10 for the first card, 999 for the
    second), where the specified total is 20; the same through the
    aggregator, for a case whose payload carries the two cards. *)
Theorem C1_second_unconfigured_card_adds_999 :
  let table : pydict := <[KStr unconfigured := 10]> ∅ in
  let g := initial_globals table 0 0 in
  let pbs := [JStr "B"; JStr "B"] in
  let detail := λ _ : json, case_details (alert_card <$> pbs) in
  snd (for_each pbs add_playbook g) = inr tt ∧
  roi_counts (fst (for_each pbs add_playbook g)) !! KStr "B" = Some 1009 ∧
  specified_total table 10 (KStr "B") [KStr "B"; KStr "B"] = 20 ∧
  snd (sum_hours_saved_by_case_id detail (JNum 1) g) = inr tt ∧
  roi_counts (fst (sum_hours_saved_by_case_id detail (JNum 1) g)) = <[KStr "B" := 1009]> ∅.
Proof.
  intros table g pbs detail.
  do 4 (split; [vm_compute; reflexivity |]). by_evaluation.
Qed.

(** C4.  In an increment step whose playbook name is already a key of
    [roi_counts] and is not a key of the table, no exception leaves the
    step: 999 is added to the entry of that name and nothing else changes. *)
Theorem C4_penalty_of_999 g pb k v :
  hash pb = inr k →
  roi_counts g !! k = Some v →
  playbook_time_def_map g !! k = None →
  add_playbook pb g = (set_roi_counts (<[k := v + 999]> (roi_counts g)) g, inr tt).
Proof. intros Hk Hroi Htab. by apply add_playbook_penalty. Qed.

Lemma C4_penalty_of_999_witness :
  let g := set_roi_counts (<[KStr "B" := 10]> ∅) (initial_globals (<[KStr unconfigured := 10]> ∅) 0 0) in
  add_playbook (JStr "B") g = (set_roi_counts (<[KStr "B" := 10 + 999]> (roi_counts g)) g, inr tt).
Proof.
  apply (C4_penalty_of_999 _ (JStr "B") (KStr "B") 10); reflexivity.
Defined.

(** C9.  With the table [{"A": 30, "__unconfigured__": 10}], case 1 carrying
    the cards ["A", "B"] and case 2 the card ["A"], the run of
    [roi-report-poc.py] completes and its final [roi_counts] is
    [{"A": 60, "B": 10}]. *)
Theorem C9_example_totals :
  let g := initial_globals example_table poc_startTime poc_endTime in
  let run := main example_search_response example_detail_response g in
  snd run = inr tt ∧
  roi_counts (fst run) = <[KStr "A" := 60]> (<[KStr "B" := 10]> ∅).
Proof.
  intros g run. split; [vm_compute; reflexivity | by_evaluation].
Qed.

Lemma sum_hours_saved_by_case_id_failure detail_response case_id g :
  status_code (detail_response case_id) ≠ 200 →
  sum_hours_saved_by_case_id detail_response case_id g =
    (emit (Stdout (error_line (detail_response case_id))) (emit (HttpGet case_id) g), inr tt).
Proof.
  intros Hstatus. unfold sum_hours_saved_by_case_id, bind, requests_get.
  case_decide; [done | reflexivity].
Qed.

(** C5.  When the detail request of a case is answered with a status other
    than 200, the aggregator prints the status and the body and returns
    normally; [roi_counts] and the table are what they were, and the loop of
    the run goes on with the cases that follow. *)
Theorem C5_detail_failure_changes_nothing detail_response case_id rest g :
  status_code (detail_response case_id) ≠ 200 →
  let g' := emit (Stdout (error_line (detail_response case_id))) (emit (HttpGet case_id) g) in
  sum_hours_saved_by_case_id detail_response case_id g = (g', inr tt) ∧
  roi_counts g' = roi_counts g ∧
  playbook_time_def_map g' = playbook_time_def_map g ∧
  for_each (case_id :: rest) (sum_hours_saved_by_case_id detail_response) g =
    for_each rest (sum_hours_saved_by_case_id detail_response) g'.
Proof.
  intros Hstatus g'. split; [by apply sum_hours_saved_by_case_id_failure |].
  split; [done |]. split; [done |].
  simpl. unfold bind at 1.
  by rewrite sum_hours_saved_by_case_id_failure.
Qed.

Lemma C5_detail_failure_changes_nothing_witness :
  let g := initial_globals example_table poc_startTime poc_endTime in
  let g' := emit (Stdout "Error: 404 - Not Found") (emit (HttpGet (JNum 3)) g) in
  sum_hours_saved_by_case_id example_detail_response (JNum 3) g = (g', inr tt) ∧
  roi_counts g' = roi_counts g ∧
  playbook_time_def_map g' = playbook_time_def_map g ∧
  for_each [JNum 3; JNum 2] (sum_hours_saved_by_case_id example_detail_response) g =
    for_each [JNum 2] (sum_hours_saved_by_case_id example_detail_response) g'.
Proof.
  apply (C5_detail_failure_changes_nothing example_detail_response (JNum 3) [JNum 2]).
  vm_compute. discriminate.
Defined.

(** C10.  Whatever the response to the detail request and whatever the
    outcome of the call, the aggregation of one case removes no key of
    [roi_counts], lowers no entry (the values of the table being
    non-negative) and leaves the table as it was; this holds for the function
    of either script. *)
Theorem C10_case_aggregation_only_grows detail_response case_id g :
  nonneg_table (playbook_time_def_map g) →
  kept g (fst (sum_hours_saved_by_case_id detail_response case_id g)) ∧
  kept g (fst (sum_minutes_saved_by_case_id detail_response case_id g)).
Proof.
  intros Hnn. split; [by apply keeps_sum_hours_saved_by_case_id |].
  apply (keeps_sum_hours_saved_by_case_id detail_response case_id g Hnn).
Qed.

Lemma C10_case_aggregation_only_grows_witness :
  let g := set_roi_counts (<[KStr "B" := 10]> ∅)
             (initial_globals example_table poc_startTime poc_endTime) in
  kept g (fst (sum_hours_saved_by_case_id example_detail_response (JNum 1) g)) ∧
  kept g (fst (sum_minutes_saved_by_case_id example_detail_response (JNum 1) g)).
Proof.
  apply (C10_case_aggregation_only_grows example_detail_response (JNum 1)).
  unfold nonneg_table. simpl.
  refine (bool_decide_unpack _ _). vm_compute. exact I.
Defined.

(** ** Cards without the field ['playbookAttached'] *)

Lemma comprehension_KeyError (name : string) (cards : list json) :
  Forall (λ card, ∃ fields, card = JObj fields) cards →
  Exists (λ card, getitem card name = inl KeyError) cards →
  comprehension (λ card, getitem card name) cards = inl KeyError.
Proof.
  induction cards as [| card rest IH]; intros Hobj Hmiss.
  - by apply Exists_nil in Hmiss.
  - apply Forall_cons in Hobj as [[fields ->] Hrest].
    simpl. destruct (assoc name fields) as [v |] eqn:Hfield; [| done].
    apply Exists_cons in Hmiss as [Hhead | Htail].
    + simpl in Hhead. by rewrite Hfield in Hhead.
    + by rewrite (IH Hrest Htail).
Qed.

(** C3, as the code has it.  When the detail request is answered with 200
    and one of the alert cards (JSON objects) of the payload has no field
    ['playbookAttached'], the list of names is not built: [KeyError] leaves
    the call before the accumulation loop starts, so no card of the case is
    accumulated and [roi_counts] is what it was. *)
Theorem C3_card_without_field_raises detail_response case_id g json_data cards :
  status_code (detail_response case_id) = 200 →
  body (detail_response case_id) = Some json_data →
  getitem json_data "alertCards" = inr (JArr cards) →
  Forall (λ card, ∃ fields, card = JObj fields) cards →
  Exists (λ card, getitem card "playbookAttached" = inl KeyError) cards →
  sum_hours_saved_by_case_id detail_response case_id g =
    (emit (HttpGet case_id) g, inl KeyError).
Proof.
  intros Hstatus Hbody Hcards Hobj Hmiss.
  unfold sum_hours_saved_by_case_id, bind, requests_get.
  case_decide; [| done].
  unfold response_json. rewrite Hbody. unfold ret, lift.
  rewrite Hcards. simpl.
  by rewrite (comprehension_KeyError "playbookAttached" cards Hobj Hmiss).
Qed.

Lemma C3_card_without_field_raises_witness :
  let detail := λ _ : json, case_details [alert_card (JStr "A"); JObj []] in
  let g := initial_globals example_table poc_startTime poc_endTime in
  sum_hours_saved_by_case_id detail (JNum 1) g = (emit (HttpGet (JNum 1)) g, inl KeyError).
Proof.
  intros detail g.
  apply (C3_card_without_field_raises detail (JNum 1) g
           (JObj [("alertCards"%string, JArr [alert_card (JStr "A"); JObj []])])
           [alert_card (JStr "A"); JObj []]).
  - reflexivity.
  - reflexivity.
  - reflexivity.
  - repeat constructor; eexists; reflexivity.
  - apply Exists_cons_tl, Exists_cons_hd. reflexivity.
Defined.

(** C3, as the specification states it, fails: the payload of a case with a
    card naming ["A"] followed by a card without the field is answered with
    200, and the call neither completes nor accumulates the card ["A"]. *)
Lemma C3_card_without_field_counterexample :
  let detail := λ _ : json, case_details [alert_card (JStr "A"); JObj []] in
  let g := initial_globals example_table poc_startTime poc_endTime in
  let run := sum_hours_saved_by_case_id detail (JNum 1) g in
  status_code (detail (JNum 1)) = 200 ∧
  snd run ≠ inr tt ∧
  snd run = inl KeyError ∧
  roi_counts (fst run) !! KStr "A" = None.
Proof. vm_compute. repeat split; discriminate. Qed.

(** A card whose field is [null] does carry a name for the code: [None] is
    accumulated like any other key. *)
Example null_playbook_is_a_name :
  let detail := λ _ : json, case_details [alert_card JNull; alert_card (JStr "A")] in
  let g := initial_globals example_table poc_startTime poc_endTime in
  let run := sum_hours_saved_by_case_id detail (JNum 1) g in
  snd run = inr tt ∧
  roi_counts (fst run) = <[KNone := 10]> (<[KStr "A" := 30]> ∅).
Proof.
  intros detail g run. split; [vm_compute; reflexivity | by_evaluation].
Qed.

(** ** The Case Lister *)

Lemma append_ids_Forall2 (results ids : list json) :
  Forall2 (λ result id, getitem result "id" = inr id) results ids →
  ∀ case_id_list, append_ids results case_id_list = inr (case_id_list ++ ids).
Proof.
  induction 1 as [| result id results ids Hid _ IH]; intros case_id_list; simpl.
  - by rewrite app_nil_r.
  - by rewrite Hid, IH, <- app_assoc.
Qed.

Lemma get_case_ids_failure search_response g :
  let r := search_response (startTime g) (endTime g) in
  status_code r ≠ 200 →
  get_case_ids search_response g =
    (emit (Stdout (error_line r)) (emit (HttpPost (startTime g) (endTime g)) g), inr []).
Proof.
  intros r Hstatus. unfold get_case_ids, bind, requests_post.
  fold r. case_decide; [done | reflexivity].
Qed.

Lemma get_case_ids_success search_response g json_data results ids :
  let r := search_response (startTime g) (endTime g) in
  status_code r = 200 →
  body r = Some json_data →
  getitem json_data "results" = inr (JArr results) →
  Forall2 (λ result id, getitem result "id" = inr id) results ids →
  get_case_ids search_response g = (emit (HttpPost (startTime g) (endTime g)) g, inr ids).
Proof.
  intros r Hstatus Hbody Hresults Hids. unfold get_case_ids, bind, requests_post.
  fold r. case_decide; [| done].
  unfold response_json. rewrite Hbody. unfold ret, lift.
  rewrite Hresults. simpl.
  by rewrite (append_ids_Forall2 _ _ Hids).
Qed.

Lemma main_search_failure search_response detail_response g :
  let r := search_response (startTime g) (endTime g) in
  status_code r ≠ 200 →
  main search_response detail_response g =
    (emit (PrettyPrinted (roi_counts g))
       (emit (Stdout report_header)
          (emit (Stdout (error_line r))
             (emit (HttpPost (startTime g) (endTime g)) g))),
     inr tt).
Proof.
  intros r Hstatus. unfold main, bind at 1.
  by rewrite get_case_ids_failure.
Qed.

(** C6.  When the case search is answered with a status other than 200, the
    Case Lister prints the status and the body and returns the empty list
    without raising; the run of [roi-report-poc.py] then completes without a
    single detail request and its final [roi_counts] is empty.  When it is
    answered with 200, the Case Lister returns the ['id'] of every element of
    ['results'], in the order of the array. *)
Theorem C6_case_lister search_response detail_response g :
  let r := search_response (startTime g) (endTime g) in
  let post := HttpPost (startTime g) (endTime g) in
  (status_code r ≠ 200 →
     get_case_ids search_response g = (emit (Stdout (error_line r)) (emit post g), inr []) ∧
     (roi_counts g = ∅ →
      let run := main search_response detail_response g in
      snd run = inr tt ∧
      roi_counts (fst run) = ∅ ∧
      trace (fst run) =
        trace g ++ [post; Stdout (error_line r); Stdout report_header; PrettyPrinted ∅])) ∧
  (status_code r = 200 →
     ∀ json_data results ids,
       body r = Some json_data →
       getitem json_data "results" = inr (JArr results) →
       Forall2 (λ result id, getitem result "id" = inr id) results ids →
       get_case_ids search_response g = (emit post g, inr ids)).
Proof.
  intros r post. split.
  - intros Hstatus. split; [by apply get_case_ids_failure |].
    intros Hempty run. unfold run.
    rewrite main_search_failure by done. simpl.
    rewrite Hempty, <- !app_assoc. done.
  - intros Hstatus json_data results ids Hbody Hresults Hids.
    by eapply get_case_ids_success.
Qed.

Lemma C6_case_lister_witness :
  let g := initial_globals example_table poc_startTime poc_endTime in
  (get_case_ids (λ _ _, unavailable) g =
     (emit (Stdout "Error: 503 - Service Unavailable")
        (emit (HttpPost poc_startTime poc_endTime) g), inr []) ∧
   (let run := main (λ _ _, unavailable) example_detail_response g in
    snd run = inr tt ∧
    roi_counts (fst run) = ∅ ∧
    trace (fst run) =
      [HttpPost poc_startTime poc_endTime; Stdout "Error: 503 - Service Unavailable";
       Stdout report_header; PrettyPrinted ∅])) ∧
  get_case_ids example_search_response g =
    (emit (HttpPost poc_startTime poc_endTime) g, inr [JNum 1; JNum 2]).
Proof.
  intros g. split.
  - pose proof (proj1 (C6_case_lister (λ _ _, unavailable) example_detail_response g)) as Hfail.
    destruct Hfail as [Hids Hmain]; [vm_compute; discriminate |].
    split; [exact Hids | exact (Hmain eq_refl)].
  - apply (proj2 (C6_case_lister example_search_response example_detail_response g) eq_refl
             (JObj [("results"%string,
                     JArr [JObj [("id"%string, JNum 1)]; JObj [("id"%string, JNum 2)]])])
             [JObj [("id"%string, JNum 1)]; JObj [("id"%string, JNum 2)]]
             [JNum 1; JNum 2]).
    + reflexivity.
    + reflexivity.
    + repeat constructor.
Defined.

(** ** Start-up *)

Lemma missing_vars_cases environ :
  missing_vars environ =
    match environ !! "APP_KEY"%string, environ !! "BASE_URL"%string with
    | None, None => ["APP_KEY"; "BASE_URL"]%string
    | None, Some _ => ["APP_KEY"]%string
    | Some _, None => ["BASE_URL"]%string
    | Some _, Some _ => []
    end.
Proof.
  unfold missing_vars, required_env_vars.
  rewrite !filter_cons, filter_nil.
  destruct (environ !! "APP_KEY"%string), (environ !! "BASE_URL"%string);
    repeat case_decide; done.
Qed.

Lemma check_environment_missing environ g :
  missing_vars environ ≠ [] →
  check_environment environ g =
    (emit (Stderr (error_message (missing_vars environ))) g, inl (SystemExit 1)).
Proof.
  intros Hmissing. unfold check_environment.
  destruct (missing_vars environ) as [| var rest]; [done | reflexivity].
Qed.

Lemma check_environment_complete environ g :
  missing_vars environ = [] → check_environment environ g = (g, inr tt).
Proof. intros Hnone. unfold check_environment. by rewrite Hnone. Qed.

(** C8.  When [APP_KEY] or [BASE_URL] is not in the environment, the script
    prints to standard error a line naming the missing variables and exits
    with status 1, and that line is the whole trace of the process: no
    request was made.  When both are there, start-up prints nothing and the
    script is its main part, whose normal completion is exit status 0. *)
Theorem C8_required_environment search_response detail_response environ table start_time end_time :
  let g := initial_globals table start_time end_time in
  let run := script_poc search_response detail_response environ g in
  (environ !! "APP_KEY"%string = None ∨ environ !! "BASE_URL"%string = None →
     snd run = inl (SystemExit 1) ∧
     exit_code (snd run) = 1 ∧
     trace (fst run) = [Stderr (error_message (missing_vars environ))] ∧
     forallb (λ ev, negb (is_network ev)) (trace (fst run)) = true ∧
     (∀ var, var ∈ missing_vars environ ↔
             var ∈ required_env_vars ∧ environ !! var = None) ∧
     error_message (missing_vars environ) =
       "Error: The following environment variables are missing: " +:+
       match environ !! "APP_KEY"%string, environ !! "BASE_URL"%string with
       | None, None => "APP_KEY, BASE_URL"
       | None, Some _ => "APP_KEY"
       | _, _ => "BASE_URL"
       end) ∧
  (is_Some (environ !! "APP_KEY"%string) → is_Some (environ !! "BASE_URL"%string) →
     run = main search_response detail_response g ∧
     (∀ u, snd run = inr u → exit_code (snd run) = 0)).
Proof.
  intros g run. split.
  - intros Habsent.
    assert (missing_vars environ ≠ []) as Hmissing.
    { rewrite missing_vars_cases.
      destruct Habsent as [-> | ->]; [destruct (environ !! "BASE_URL"%string) |
                                      destruct (environ !! "APP_KEY"%string)]; done. }
    unfold run, script_poc, bind.
    rewrite (check_environment_missing environ g Hmissing). simpl.
    do 4 (split; [done |]). split.
    + intros var. unfold missing_vars. rewrite list_elem_of_filter. tauto.
    + rewrite missing_vars_cases.
      destruct Habsent as [Hkey | Hurl].
      * rewrite Hkey. by destruct (environ !! "BASE_URL"%string).
      * rewrite Hurl. by destruct (environ !! "APP_KEY"%string).
  - intros [key_value Hkey] [url_value Hurl]. split.
    + unfold run, script_poc, bind.
      rewrite check_environment_complete; [done |].
      by rewrite missing_vars_cases, Hkey, Hurl.
    + intros u ->. reflexivity.
Qed.

Lemma C8_required_environment_witness :
  let g := initial_globals example_table poc_startTime poc_endTime in
  let without_key : gmap string string := <["BASE_URL"%string := "https://soar.example"%string]> ∅ in
  let complete : gmap string string := <["APP_KEY"%string := "secret"%string]> without_key in
  (snd (script_poc example_search_response example_detail_response without_key g)
     = inl (SystemExit 1) ∧
   trace (fst (script_poc example_search_response example_detail_response without_key g))
     = [Stderr "Error: The following environment variables are missing: APP_KEY"]) ∧
  script_poc example_search_response example_detail_response complete g
    = main example_search_response example_detail_response g.
Proof.
  intros g without_key complete. split.
  - destruct (proj1 (C8_required_environment example_search_response example_detail_response
                       without_key example_table poc_startTime poc_endTime))
      as (Hexit & _ & Htrace & _); [left; reflexivity |].
    split; [exact Hexit | exact Htrace].
  - apply (proj2 (C8_required_environment example_search_response example_detail_response
                    complete example_table poc_startTime poc_endTime)).
    + exists "secret"%string. reflexivity.
    + exists "https://soar.example"%string. reflexivity.
Defined.


(** ** The windows of the multi-day loop *)

(** Every window of the loop ends at today's midnight and is [i + 1] days
    long. *)
Lemma day_window_shape utcnow i :
  snd (day_window utcnow i) = midnight (utcnow i) ∧
  snd (day_window utcnow i) - fst (day_window utcnow i) = (Z.of_nat i + 1) * usec_per_day.
Proof. unfold day_window, timedelta_days. simpl. lia. Qed.

Lemma midnight_is_start_of_day now :
  midnight now `mod` usec_per_day = 0 ∧ midnight now ≤ now < midnight now + usec_per_day.
Proof.
  unfold midnight, usec_per_day.
  pose proof (Z.mod_pos_bound now 86400000000 ltac:(lia)) as Hbound.
  split; [| lia].
  rewrite Zminus_mod, Zmod_mod, Z.sub_diag. reflexivity.
Qed.

(** C2 (defect of the code).  The specification gives iteration [i] the day
    from [i + 1] to [i] days before today's midnight.  With the clock at
    noon of 4 November 2024, iteration 1 queries from 2 November 00:00 to
    4 November 00:00: two days, ending today and not on 3 November, and
    containing the whole window of iteration 0; the three searches of the
    run are for the last one, two and three days. *)
Theorem C2_windows_all_end_today :
  let utcnow := λ _ : nat, noon_4_november_2024 in
  let day := usec_per_day in
  let today := 1730678400000000 in
  midnight noon_4_november_2024 = today ∧
  day_window utcnow 1 = (today - 2 * day, today) ∧
  specified_day_window utcnow 1 = (today - 2 * day, today - day) ∧
  day_window utcnow 0 = (today - day, today) ∧
  search_requests
    (trace (fst (main_seaborn (λ _ _, unavailable) example_detail_response utcnow
                   (initial_globals example_table 0 0)))) =
    [(today - day, today); (today - 2 * day, today); (today - 3 * day, today)].
Proof. vm_compute. repeat split. Qed.

(** ** The grand total of the multi-day loop *)

Lemma lookup_update_total day_counts total P :
  update_total day_counts total !! P =
    match total !! P, day_counts !! P with
    | Some a, Some b => Some (a + b)
    | Some a, None => Some a
    | None, Some b => Some b
    | None, None => None
    end.
Proof.
  revert P. unfold update_total.
  apply (map_fold_weak_ind (λ (r : pydict) (m : pydict), ∀ P,
    r !! P = match total !! P, m !! P with
             | Some a, Some b => Some (a + b)
             | Some a, None => Some a
             | None, Some b => Some b
             | None, None => None
             end)).
  - intros P. rewrite lookup_empty. by destruct (total !! P).
  - intros i x m r Hfresh IH P.
    pose proof (IH i) as Hi. rewrite Hfresh in Hi.
    destruct (decide (i = P)) as [<- | Hne].
    + rewrite lookup_insert_eq.
      destruct (total !! i) as [a |]; rewrite Hi; by rewrite lookup_insert_eq.
    + rewrite (lookup_insert_ne m) by done. rewrite <- IH.
      destruct (r !! i); by rewrite lookup_insert_ne.
Qed.

Lemma lookup_grand_total counts : ∀ (total : pydict) P,
  foldl (λ t day_counts, update_total day_counts t) total counts !! P =
    match total !! P with
    | Some a => Some (a + day_sum P counts)
    | None =>
        if decide (Exists (λ day_counts : pydict, is_Some (day_counts !! P)) counts)
        then Some (day_sum P counts) else None
    end.
Proof.
  induction counts as [| c rest IH]; intros total P; cbn [foldl day_sum].
  - destruct (total !! P); [f_equal; lia |].
    rewrite decide_False; [done |]. by intros ?%Exists_nil.
  - rewrite IH, lookup_update_total.
    destruct (total !! P) as [a |], (c !! P) as [b |] eqn:Hc.
    + simpl; f_equal; lia.
    + simpl; f_equal; lia.
    + rewrite decide_True; [done |]. apply Exists_cons_hd. by rewrite Hc.
    + destruct (decide (Exists (λ day_counts : pydict, is_Some (day_counts !! P)) rest))
        as [Hrest | Hrest].
      * rewrite decide_True; [done |]. by apply Exists_cons_tl.
      * rewrite decide_False; [done |].
        intros [Hhead | Htail]%Exists_cons; [| done].
        rewrite Hc in Hhead. by destruct Hhead.
Qed.

Lemma day_loop_daily_counts search_response detail_response utcnow days : ∀ acc g,
  day_loop search_response detail_response utcnow days acc g =
    match daily_counts search_response detail_response utcnow days g with
    | (g', inr counts) => (g', inr (record_days utcnow days counts acc))
    | (g', inl e) => (g', inl e)
    end.
Proof.
  induction days as [| i rest IH]; intros acc g; simpl; [done |].
  unfold bind.
  destruct (run_day search_response detail_response utcnow i g) as [g1 [e | c]]; [done |].
  rewrite IH.
  by destruct (daily_counts search_response detail_response utcnow rest g1) as [g2 [e | cs]].
Qed.

Lemma daily_counts_length search_response detail_response utcnow days : ∀ g g' counts,
  daily_counts search_response detail_response utcnow days g = (g', inr counts) →
  length counts = length days.
Proof.
  induction days as [| i rest IH]; intros g g' counts; simpl.
  - unfold ret. by intros [= <- <-].
  - unfold bind.
    destruct (run_day search_response detail_response utcnow i g) as [g1 [e | c]]; [done |].
    destruct (daily_counts search_response detail_response utcnow rest g1)
      as [g2 [e | cs]] eqn:Hrest; [done |].
    unfold ret. intros [= <- <-]. simpl. f_equal. by eapply IH.
Qed.

Lemma total_record_days utcnow days : ∀ counts acc,
  length counts = length days →
  total_minutes_saved (record_days utcnow days counts acc) =
    foldl (λ t day_counts, update_total day_counts t) (total_minutes_saved acc) counts.
Proof.
  induction days as [| i rest IH]; intros [| c cs] acc Hlen; simpl in *; try done.
  rewrite IH by lia. done.
Qed.

(** C7.  When the loop over [n] days completes, the grand total has an entry
    for a playbook exactly when one of the [n] daily dictionaries has one,
    and that entry is the sum over the days of the day's entry, a day
    without an entry counting for 0. *)
Theorem C7_grand_total_is_sum_of_days search_response detail_response utcnow n g g' result :
  main_days search_response detail_response utcnow n g = (g', inr result) →
  ∃ counts,
    daily_counts search_response detail_response utcnow (seq 0 n) g = (g', inr counts) ∧
    length counts = n ∧
    ∀ P,
      (is_Some (total_minutes_saved result !! P) ↔
         Exists (λ day_counts : pydict, is_Some (day_counts !! P)) counts) ∧
      default 0 (total_minutes_saved result !! P) = day_sum P counts.
Proof.
  unfold main_days. rewrite day_loop_daily_counts.
  destruct (daily_counts search_response detail_response utcnow (seq 0 n) g)
    as [g1 [e | counts]] eqn:Hdaily; [done |].
  intros [= <- <-]. exists counts.
  pose proof (daily_counts_length _ _ _ _ _ _ _ Hdaily) as Hlen.
  rewrite length_seq in Hlen.
  split; [done |]. split; [done |]. intros P.
  rewrite total_record_days by (by rewrite length_seq).
  rewrite lookup_grand_total. cbn [total_minutes_saved empty_report]. rewrite lookup_empty.
  destruct (decide (Exists (λ day_counts : pydict, is_Some (day_counts !! P)) counts))
    as [Hex | Hex].
  - split; [| done]. split; [done | by eexists].
  - split.
    + split; [by intros [? ?] | done].
    + clear Hdaily Hlen. induction counts as [| c rest IH]; simpl; [done |].
      destruct (c !! P) as [b |] eqn:Hc.
      * exfalso. apply Hex, Exists_cons_hd. by rewrite Hc.
      * simpl. rewrite <- IH; [done |]. intros Hrest. by apply Hex, Exists_cons_tl.
Qed.

Lemma C7_grand_total_is_sum_of_days_witness :
  let utcnow := λ _ : nat, noon_4_november_2024 in
  let g := initial_globals example_table 0 0 in
  let run := main_days example_search_response example_detail_response utcnow 3 g in
  let result := default empty_report (from_inr (snd run)) in
  ∃ counts,
    daily_counts example_search_response example_detail_response utcnow (seq 0 3) g
      = (fst run, inr counts) ∧
    length counts = 3%nat ∧
    ∀ P,
      (is_Some (total_minutes_saved result !! P) ↔
         Exists (λ day_counts : pydict, is_Some (day_counts !! P)) counts) ∧
      default 0 (total_minutes_saved result !! P) = day_sum P counts.
Proof.
  intros utcnow g run result.
  apply (C7_grand_total_is_sum_of_days example_search_response example_detail_response
           utcnow 3 g (fst run) result).
  change (run = (fst run, inr result)).
  assert (is_Some (from_inr (snd run))) as Hreturns by by_evaluation.
  unfold result. clearbody run.
  destruct run as [g' [e | returned]]; [by destruct Hreturns | reflexivity].
Defined.

(** The grand total of that run: three days with [{"A": 60, "B": 10}]. *)
Example grand_total_of_three_days :
  let run := main_days example_search_response example_detail_response
               (λ _, noon_4_november_2024) 3 (initial_globals example_table 0 0) in
  total_minutes_saved <$> from_inr (snd run) = Some (<[KStr "A" := 180]> (<[KStr "B" := 30]> ∅)).
Proof. intros run. by_evaluation. Qed.

(** The daily dictionaries are what the loop files in [all_roi_counts]: when
    the start dates of the iterations are distinct, the entry of each start
    date is the [roi_counts] of its iteration. *)
Lemma lookup_all_roi_counts_other utcnow days : ∀ counts acc start,
  start ∉ (λ i, fst (day_window utcnow i)) <$> days →
  all_roi_counts (record_days utcnow days counts acc) !! start = all_roi_counts acc !! start.
Proof.
  induction days as [| i rest IH]; intros [| c cs] acc start Hstart; simpl; try done.
  rewrite fmap_cons, not_elem_of_cons in Hstart. destruct Hstart as [Hne Hrest].
  rewrite IH by done. simpl. by rewrite lookup_insert_ne.
Qed.

Lemma lookup_all_roi_counts utcnow days : ∀ counts acc j i c,
  NoDup ((λ i, fst (day_window utcnow i)) <$> days) →
  days !! j = Some i →
  counts !! j = Some c →
  all_roi_counts (record_days utcnow days counts acc) !! fst (day_window utcnow i) = Some c.
Proof.
  induction days as [| i0 rest IH]; intros [| c0 cs] acc j i c Hnodup Hday Hcount;
    try done.
  rewrite fmap_cons in Hnodup. apply NoDup_cons in Hnodup as [Hfresh Hnodup].
  destruct j as [| j]; simpl in *.
  - injection Hday as ->. injection Hcount as ->.
    rewrite lookup_all_roi_counts_other by done. simpl. by rewrite lookup_insert_eq.
  - by eapply IH.
Qed.

Lemma start_dates_distinct utcnow now n :
  (∀ i, utcnow i = now) →
  NoDup ((λ i, fst (day_window utcnow i)) <$> seq 0 n).
Proof.
  intros Hclock. apply NoDup_fmap_2_strong; [| apply NoDup_seq].
  intros i j _ _. unfold day_window, timedelta_days, usec_per_day. simpl.
  rewrite !Hclock. lia.
Qed.

Lemma all_roi_counts_of_run search_response detail_response utcnow now n g g' result counts :
  (∀ i, utcnow i = now) →
  main_days search_response detail_response utcnow n g = (g', inr result) →
  daily_counts search_response detail_response utcnow (seq 0 n) g = (g', inr counts) →
  ∀ i day_counts,
    counts !! i = Some day_counts →
    all_roi_counts result !! fst (day_window utcnow i) = Some day_counts.
Proof.
  intros Hclock Hmain Hdaily i c Hc.
  unfold main_days in Hmain. rewrite day_loop_daily_counts, Hdaily in Hmain.
  injection Hmain as <-.
  pose proof (daily_counts_length _ _ _ _ _ _ _ Hdaily) as Hlen.
  rewrite length_seq in Hlen.
  apply (lookup_all_roi_counts utcnow (seq 0 n) counts empty_report i i c).
  - by eapply start_dates_distinct.
  - apply lookup_seq. split; [done |]. apply lookup_lt_Some in Hc. lia.
  - done.
Qed.

(** * Further properties of the two scripts *)

(** ** What the increment step leaves alone *)

Lemma only_roi_counts_differs_refl g : only_roi_counts_differs g g.
Proof. by repeat split. Qed.

Lemma only_roi_counts_differs_set g d : only_roi_counts_differs g (set_roi_counts d g).
Proof. by repeat split. Qed.

Lemma only_roi_counts_differs_trans g1 g2 g3 :
  only_roi_counts_differs g1 g2 → only_roi_counts_differs g2 g3 →
  only_roi_counts_differs g1 g3.
Proof.
  intros (Ht & Hs & He & Htr) (Ht' & Hs' & He' & Htr').
  repeat split; congruence.
Qed.

Lemma add_playbook_only_roi_counts pb g :
  only_roi_counts_differs g (fst (add_playbook pb g)).
Proof.
  destruct (hash pb) as [e | k] eqn:Hk.
  { rewrite (add_playbook_unhashable g pb e Hk). apply only_roi_counts_differs_refl. }
  destruct (roi_counts g !! k) as [v |] eqn:Hroi;
    destruct (playbook_time_def_map g !! k) as [t |] eqn:Htab.
  - rewrite (add_playbook_adds g pb k Hk v t Hroi Htab). apply only_roi_counts_differs_set.
  - rewrite (add_playbook_penalty g pb k Hk v Hroi Htab). apply only_roi_counts_differs_set.
  - rewrite (add_playbook_first g pb k Hk t Hroi Htab). apply only_roi_counts_differs_set.
  - destruct (playbook_time_def_map g !! KStr unconfigured) as [d |] eqn:Hdef.
    + rewrite (add_playbook_first_default g pb k Hk d Hroi Htab Hdef).
      apply only_roi_counts_differs_set.
    + rewrite (add_playbook_no_default g pb k Hk Hroi Htab Hdef).
      apply only_roi_counts_differs_refl.
Qed.

Lemma for_each_add_playbook_only_roi_counts pbs : ∀ g,
  only_roi_counts_differs g (fst (for_each pbs add_playbook g)).
Proof.
  induction pbs as [| pb rest IH]; intros g; simpl.
  - apply only_roi_counts_differs_refl.
  - unfold bind. pose proof (add_playbook_only_roi_counts pb g) as Hstep.
    destruct (add_playbook pb g) as [g1 [e | []]]; simpl in *; [done |].
    eapply only_roi_counts_differs_trans; [exact Hstep | apply IH].
Qed.

Lemma for_each_app {A} (l1 l2 : list A) (body : A → M unit) g :
  for_each (l1 ++ l2) body g =
    match for_each l1 body g with
    | (g1, inr _) => for_each l2 body g1
    | (g1, inl e) => (g1, inl e)
    end.
Proof.
  revert g. induction l1 as [| x rest IH]; intros g; simpl; [done |].
  unfold bind. destruct (body x g) as [g1 [e | []]]; [done | apply IH].
Qed.

Lemma comprehension_inr_Forall2 {A B} (f : A → exn + B) (l : list A) : ∀ ys,
  comprehension f l = inr ys → Forall2 (λ x y, f x = inr y) l ys.
Proof.
  induction l as [| x rest IH]; intros ys; simpl.
  - intros [= <-]. constructor.
  - destruct (f x) as [e | y] eqn:Hx; [done |].
    destruct (comprehension f rest) as [e | ys'] eqn:Hrest; [done |].
    intros [= <-]. constructor; [done | by apply IH].
Qed.

Lemma lookup_foldl_entry_after table d ks roi P :
  foldl (after_increment table d) roi ks !! P =
    entry_after table d (roi !! P) P (occurrences P ks).
Proof. apply lookup_foldl_after_increment. Qed.

(** ** A case whose payload is well formed *)

Lemma sum_hours_saved_by_case_id_success detail_response case_id g ks d :
  status_code (detail_response case_id) = 200 →
  payload_names (detail_response case_id) = inr ks →
  playbook_time_def_map g !! KStr unconfigured = Some d →
  let roi' := foldl (after_increment (playbook_time_def_map g) d) (roi_counts g) ks in
  sum_hours_saved_by_case_id detail_response case_id g =
    (emit (PrettyPrinted roi')
       (emit (Stdout "") (set_roi_counts roi' (emit (HttpGet case_id) g))),
     inr tt).
Proof.
  intros Hstatus Hnames Hdef roi'.
  unfold payload_names, payload_playbooks in Hnames.
  unfold sum_hours_saved_by_case_id, bind, requests_get, response_json, ret, raise, lift.
  destruct (decide (status_code (detail_response case_id) = 200)) as [_ | Hne]; [| done].
  destruct (body (detail_response case_id)) as [json_data |]; [| done].
  destruct (getitem json_data "alertCards") as [e | arr]; [done |].
  destruct (iter arr) as [e | cards]; [done |].
  destruct (comprehension _ cards) as [e | pbs]; [done |].
  apply comprehension_inr_Forall2 in Hnames.
  rewrite (for_each_add_playbook pbs ks (emit (HttpGet case_id) g) d Hnames Hdef).
  reflexivity.
Qed.

(** X1.  When the detail request of a case is answered with 200 and a
    payload whose alert cards all carry a hashable ['playbookAttached'], and
    the table has the default key, the aggregator returns normally; the entry
    of every playbook is the one before plus its increments (the table's
    value or the default for a new name, the table's value or 999 for every
    later one), the table is untouched, and the call adds to the trace the
    request, a blank line and the totals as they now are. *)
Theorem X1_well_formed_case_is_accumulated detail_response case_id g ks d :
  status_code (detail_response case_id) = 200 →
  payload_names (detail_response case_id) = inr ks →
  playbook_time_def_map g !! KStr unconfigured = Some d →
  ∃ g',
    sum_hours_saved_by_case_id detail_response case_id g = (g', inr tt) ∧
    (∀ P, roi_counts g' !! P =
          entry_after (playbook_time_def_map g) d (roi_counts g !! P) P (occurrences P ks)) ∧
    playbook_time_def_map g' = playbook_time_def_map g ∧
    trace g' = trace g ++ [HttpGet case_id; Stdout ""; PrettyPrinted (roi_counts g')].
Proof.
  intros Hstatus Hnames Hdef.
  eexists. split; [by apply (sum_hours_saved_by_case_id_success _ _ _ ks d) |].
  split; [| split].
  - intros P. apply lookup_foldl_entry_after.
  - reflexivity.
  - simpl. by rewrite <- !app_assoc.
Qed.

Lemma X1_well_formed_case_is_accumulated_witness :
  let g := set_roi_counts (<[KStr "B" := 10]> ∅)
             (initial_globals example_table poc_startTime poc_endTime) in
  ∃ g',
    sum_hours_saved_by_case_id example_detail_response (JNum 1) g = (g', inr tt) ∧
    (∀ P, roi_counts g' !! P =
          entry_after example_table 10 (roi_counts g !! P) P
            (occurrences P [KStr "A"; KStr "B"])) ∧
    playbook_time_def_map g' = playbook_time_def_map g ∧
    trace g' = trace g ++ [HttpGet (JNum 1); Stdout ""; PrettyPrinted (roi_counts g')].
Proof.
  intros g.
  apply (X1_well_formed_case_is_accumulated example_detail_response (JNum 1) g
           [KStr "A"; KStr "B"] 10); reflexivity.
Defined.

(** ** Playbooks a case does not name *)

Lemma add_playbook_other_entry pb g P :
  hash pb ≠ inr P →
  roi_counts (fst (add_playbook pb g)) !! P = roi_counts g !! P.
Proof.
  intros Hother.
  destruct (hash pb) as [e | k] eqn:Hk.
  { by rewrite (add_playbook_unhashable g pb e Hk). }
  assert (k ≠ P) as Hne by congruence.
  destruct (roi_counts g !! k) as [v |] eqn:Hroi;
    destruct (playbook_time_def_map g !! k) as [t |] eqn:Htab.
  - rewrite (add_playbook_adds g pb k Hk v t Hroi Htab). simpl. by rewrite lookup_insert_ne.
  - rewrite (add_playbook_penalty g pb k Hk v Hroi Htab). simpl. by rewrite lookup_insert_ne.
  - rewrite (add_playbook_first g pb k Hk t Hroi Htab). simpl. by rewrite lookup_insert_ne.
  - destruct (playbook_time_def_map g !! KStr unconfigured) as [d |] eqn:Hdef.
    + rewrite (add_playbook_first_default g pb k Hk d Hroi Htab Hdef). simpl.
      by rewrite lookup_insert_ne.
    + by rewrite (add_playbook_no_default g pb k Hk Hroi Htab Hdef).
Qed.

Lemma for_each_add_playbook_other_entry pbs P : ∀ g,
  Forall (λ pb, hash pb ≠ inr P) pbs →
  roi_counts (fst (for_each pbs add_playbook g)) !! P = roi_counts g !! P.
Proof.
  induction pbs as [| pb rest IH]; intros g Hother; simpl; [done |].
  apply Forall_cons in Hother as [Hpb Hrest].
  unfold bind. pose proof (add_playbook_other_entry pb g P Hpb) as Hstep.
  destruct (add_playbook pb g) as [g1 [e | []]]; simpl in *; [done |].
  by rewrite IH.
Qed.

(** Whatever the response, the totals after a call are those before it, or
    those the loop leaves on the values drawn from a 200 payload. *)
Lemma sum_hours_saved_by_case_id_roi_counts detail_response case_id g :
  let r := detail_response case_id in
  let g' := fst (sum_hours_saved_by_case_id detail_response case_id g) in
  roi_counts g' = roi_counts g ∨
  ∃ pbs, status_code r = 200 ∧ payload_playbooks r = inr pbs ∧
         roi_counts g' =
           roi_counts (fst (for_each pbs add_playbook (emit (HttpGet case_id) g))).
Proof.
  intros r g'. unfold g', payload_playbooks.
  unfold sum_hours_saved_by_case_id, bind, requests_get, response_json, ret, raise, lift.
  fold r.
  destruct (decide (status_code r = 200)) as [Hstatus | Hne]; [| by left].
  destruct (body r) as [json_data |]; [| by left].
  destruct (getitem json_data "alertCards") as [e | arr]; [by left |].
  destruct (iter arr) as [e | cards]; [by left |].
  destruct (comprehension _ cards) as [e | pbs]; [by left |].
  right. exists pbs. split; [done |]. split; [done |].
  by destruct (for_each pbs add_playbook (emit (HttpGet case_id) g)) as [g1 [e | []]].
Qed.

(** X2.  Whatever the response to the detail request and whatever the
    outcome of the call, the aggregator changes the entry of no playbook
    other than those named by the alert cards of the payload: a key that is
    the name of none of the values of ['playbookAttached'] has after the call
    the entry (or the absence) it had before. *)
Theorem X2_other_playbooks_untouched detail_response case_id g P :
  (∀ pbs, payload_playbooks (detail_response case_id) = inr pbs →
          Forall (λ pb, hash pb ≠ inr P) pbs) →
  roi_counts (fst (sum_hours_saved_by_case_id detail_response case_id g)) !! P =
    roi_counts g !! P.
Proof.
  intros Hother.
  destruct (sum_hours_saved_by_case_id_roi_counts detail_response case_id g)
    as [-> | (pbs & _ & Hpbs & ->)]; [done |].
  rewrite for_each_add_playbook_other_entry by auto. done.
Qed.

Lemma X2_other_playbooks_untouched_witness :
  let g := set_roi_counts (<[KStr "C" := 7]> ∅)
             (initial_globals example_table poc_startTime poc_endTime) in
  roi_counts (fst (sum_hours_saved_by_case_id example_detail_response (JNum 1) g)) !! KStr "C" =
    roi_counts g !! KStr "C".
Proof.
  intros g.
  apply (X2_other_playbooks_untouched example_detail_response (JNum 1) g (KStr "C")).
  intros pbs [= <-]. repeat constructor; discriminate.
Defined.

(** ** Cards the loop cannot process *)

(** After a 200 answer whose values could be drawn, the call is the loop on
    those values followed by the two progress lines. *)
Lemma sum_hours_saved_by_case_id_loop detail_response case_id g pbs :
  status_code (detail_response case_id) = 200 →
  payload_playbooks (detail_response case_id) = inr pbs →
  sum_hours_saved_by_case_id detail_response case_id g =
    match for_each pbs add_playbook (emit (HttpGet case_id) g) with
    | (g1, inr _) => (emit (PrettyPrinted (roi_counts g1)) (emit (Stdout "") g1), inr tt)
    | (g1, inl e) => (g1, inl e)
    end.
Proof.
  intros Hstatus Hpbs. unfold payload_playbooks in Hpbs.
  unfold sum_hours_saved_by_case_id, bind, requests_get, response_json, ret, raise, lift.
  destruct (decide (status_code (detail_response case_id) = 200)) as [_ | Hne]; [| done].
  destruct (body (detail_response case_id)) as [json_data |]; [| done].
  destruct (getitem json_data "alertCards") as [e | arr]; [done |].
  destruct (iter arr) as [e | cards]; [done |].
  rewrite Hpbs.
  by destruct (for_each pbs add_playbook (emit (HttpGet case_id) g)) as [g1 [e | []]].
Qed.

(** X3.  A card whose ['playbookAttached'] is a list or an object (an
    unhashable value) ends the call with [TypeError]: the cards before it
    stay accumulated, the cards after it are not processed, and the progress
    lines are not printed. *)
Theorem X3_unhashable_name_stops_the_case detail_response case_id g pre bad post ks d :
  status_code (detail_response case_id) = 200 →
  payload_playbooks (detail_response case_id) = inr (pre ++ bad :: post) →
  comprehension hash pre = inr ks →
  hash bad = inl TypeError →
  playbook_time_def_map g !! KStr unconfigured = Some d →
  ∃ g',
    sum_hours_saved_by_case_id detail_response case_id g = (g', inl TypeError) ∧
    (∀ P, roi_counts g' !! P =
          entry_after (playbook_time_def_map g) d (roi_counts g !! P) P (occurrences P ks)) ∧
    trace g' = trace g ++ [HttpGet case_id].
Proof.
  intros Hstatus Hpbs Hpre Hbad Hdef.
  rewrite (sum_hours_saved_by_case_id_loop _ _ _ _ Hstatus Hpbs).
  rewrite for_each_app.
  apply comprehension_inr_Forall2 in Hpre.
  rewrite (for_each_add_playbook pre ks (emit (HttpGet case_id) g) d Hpre Hdef).
  simpl. unfold bind. rewrite (add_playbook_unhashable _ bad TypeError Hbad).
  eexists. split; [reflexivity |]. split; [| reflexivity].
  intros P. apply lookup_foldl_entry_after.
Qed.

Lemma X3_unhashable_name_stops_the_case_witness :
  let detail := λ _ : json,
    case_details [alert_card (JStr "A"); alert_card (JArr [JStr "B"]); alert_card (JStr "A")] in
  let g := initial_globals example_table poc_startTime poc_endTime in
  ∃ g',
    sum_hours_saved_by_case_id detail (JNum 1) g = (g', inl TypeError) ∧
    (∀ P, roi_counts g' !! P =
          entry_after example_table 10 (roi_counts g !! P) P (occurrences P [KStr "A"])) ∧
    trace g' = trace g ++ [HttpGet (JNum 1)].
Proof.
  intros detail g.
  apply (X3_unhashable_name_stops_the_case detail (JNum 1) g
           [JStr "A"] (JArr [JStr "B"]) [JStr "A"] [KStr "A"] 10); reflexivity.
Defined.

Lemma add_playbook_configured g pb k d :
  hash pb = inr k →
  is_Some (playbook_time_def_map g !! k) →
  add_playbook pb g =
    (set_roi_counts (after_increment (playbook_time_def_map g) d (roi_counts g) k) g, inr tt).
Proof.
  intros Hk [t Htab]. unfold after_increment. rewrite Htab.
  destruct (roi_counts g !! k) as [v |] eqn:Hroi; simpl.
  - by apply add_playbook_adds.
  - by apply add_playbook_first.
Qed.

Lemma for_each_add_playbook_configured pbs : ∀ ks g d,
  Forall2 (λ pb k, hash pb = inr k ∧ is_Some (playbook_time_def_map g !! k)) pbs ks →
  for_each pbs add_playbook g =
    (set_roi_counts (foldl (after_increment (playbook_time_def_map g) d) (roi_counts g) ks) g,
     inr tt).
Proof.
  induction pbs as [| pb pbs IH]; intros ks g d Hks.
  - apply Forall2_nil_inv_l in Hks as ->. simpl.
    by rewrite set_roi_counts_same.
  - apply Forall2_cons_inv_l in Hks as (k & ks' & [Hk Htab] & Hks' & ->).
    simpl. unfold bind at 1.
    rewrite (add_playbook_configured g pb k d Hk Htab).
    rewrite (IH ks' (set_roi_counts _ g) d Hks'). reflexivity.
Qed.

Lemma occurrences_not_elem_of P ks : P ∉ ks → occurrences P ks = 0%nat.
Proof.
  induction ks as [| k rest IH]; simpl; [done |].
  intros [Hne Hrest]%not_elem_of_cons.
  rewrite decide_False by done. by rewrite IH.
Qed.

Lemma foldl_after_increment_configured table d d' ks : ∀ roi,
  Forall (λ k, is_Some (table !! k)) ks →
  foldl (after_increment table d) roi ks = foldl (after_increment table d') roi ks.
Proof.
  induction ks as [| k rest IH]; intros roi Hks; simpl; [done |].
  apply Forall_cons in Hks as [[t Ht] Hrest].
  rewrite IH by done. f_equal. unfold after_increment. by rewrite Ht.
Qed.

(** X4.  With a table that has no ['__unconfigured__'] key, cards naming
    playbooks of the table are accumulated as usual, and the first card
    naming a playbook that is neither in the table nor yet in the totals ends
    the call with [KeyError]: the cards before it stay accumulated, nothing
    is recorded for it, and the cards after it are not processed. *)
Theorem X4_no_default_key detail_response case_id g pre pb post ks k :
  status_code (detail_response case_id) = 200 →
  payload_playbooks (detail_response case_id) = inr (pre ++ pb :: post) →
  playbook_time_def_map g !! KStr unconfigured = None →
  Forall2 (λ pb k, hash pb = inr k ∧ is_Some (playbook_time_def_map g !! k)) pre ks →
  hash pb = inr k →
  playbook_time_def_map g !! k = None →
  roi_counts g !! k = None →
  ∃ g',
    sum_hours_saved_by_case_id detail_response case_id g = (g', inl KeyError) ∧
    (∀ d P, roi_counts g' !! P =
            entry_after (playbook_time_def_map g) d (roi_counts g !! P) P (occurrences P ks)) ∧
    roi_counts g' !! k = None ∧
    trace g' = trace g ++ [HttpGet case_id].
Proof.
  intros Hstatus Hpbs Hnodef Hpre Hk Htab Hroi.
  assert (k ∉ ks) as Hfresh.
  { intros Hin. apply list_elem_of_lookup in Hin as [i Hi].
    destruct (Forall2_lookup_r _ _ _ _ _ Hpre Hi) as (pb' & _ & _ & [t Ht]).
    congruence. }
  rewrite (sum_hours_saved_by_case_id_loop _ _ _ _ Hstatus Hpbs).
  rewrite for_each_app.
  rewrite (for_each_add_playbook_configured pre ks (emit (HttpGet case_id) g) 0 Hpre).
  simpl. unfold bind.
  rewrite (add_playbook_no_default _ pb k Hk); simpl; try done.
  - eexists. split; [reflexivity |]. split; [| split; [| reflexivity]]; simpl.
    + intros d P.
      rewrite <- (lookup_foldl_entry_after _ d ks (roi_counts g) P).
      f_equal. apply foldl_after_increment_configured.
      eapply Forall2_Forall_r; [exact Hpre |].
      apply Forall_forall. by intros pb' _ k' [_ Hk'].
    + rewrite lookup_foldl_entry_after, Hroi, (occurrences_not_elem_of k ks Hfresh). done.
  - rewrite lookup_foldl_entry_after, Hroi, (occurrences_not_elem_of k ks Hfresh). done.
Qed.

Lemma X4_no_default_key_witness :
  let detail := λ _ : json,
    case_details [alert_card (JStr "A"); alert_card (JStr "B"); alert_card (JStr "A")] in
  let table : pydict := <[KStr "A" := 30]> ∅ in
  let g := initial_globals table poc_startTime poc_endTime in
  ∃ g',
    sum_hours_saved_by_case_id detail (JNum 1) g = (g', inl KeyError) ∧
    (∀ d P, roi_counts g' !! P =
            entry_after table d (roi_counts g !! P) P (occurrences P [KStr "A"])) ∧
    roi_counts g' !! KStr "B" = None ∧
    trace g' = trace g ++ [HttpGet (JNum 1)].
Proof.
  intros detail table g.
  apply (X4_no_default_key detail (JNum 1) g
           [JStr "A"] (JStr "B") [JStr "A"] [KStr "A"] (KStr "B")); try reflexivity.
  repeat constructor. by exists 30.
Defined.

(** ** Responses that are not what the scripts expect *)

Lemma sum_hours_saved_by_case_id_malformed detail_response case_id g e :
  status_code (detail_response case_id) = 200 →
  payload_playbooks (detail_response case_id) = inl e →
  sum_hours_saved_by_case_id detail_response case_id g = (emit (HttpGet case_id) g, inl e).
Proof.
  intros Hstatus Hpbs. unfold payload_playbooks in Hpbs.
  unfold sum_hours_saved_by_case_id, bind, requests_get, response_json, ret, raise, lift.
  destruct (decide (status_code (detail_response case_id) = 200)) as [_ | Hne]; [| done].
  destruct (body (detail_response case_id)) as [json_data |]; [| congruence].
  destruct (getitem json_data "alertCards") as [e' | arr]; [congruence |].
  destruct (iter arr) as [e' | cards]; [congruence |].
  by rewrite Hpbs.
Qed.

(** X5.  A detail request answered with 200 and a body from which the list
    of playbook values cannot be drawn ends the call with the exception of
    the failing step, before any accumulation: [JSONDecodeError] when the
    body is not JSON, [KeyError] when the JSON object has no ['alertCards'],
    [TypeError] when the body is not an object or ['alertCards'] is [null],
    a number or a boolean.  The totals are what they were and nothing is
    printed. *)
Theorem X5_malformed_details_raise detail_response case_id g e :
  status_code (detail_response case_id) = 200 →
  payload_playbooks (detail_response case_id) = inl e →
  sum_hours_saved_by_case_id detail_response case_id g = (emit (HttpGet case_id) g, inl e) ∧
  (body (detail_response case_id) = None → e = JSONDecodeError) ∧
  (∀ fields, body (detail_response case_id) = Some (JObj fields) →
             assoc "alertCards" fields = None → e = KeyError) ∧
  (∀ json_data, body (detail_response case_id) = Some json_data →
                (∀ fields, json_data ≠ JObj fields) → e = TypeError) ∧
  (∀ fields v, body (detail_response case_id) = Some (JObj fields) →
               assoc "alertCards" fields = Some v →
               v = JNull ∨ (∃ n, v = JNum n) ∨ (∃ b, v = JBool b) → e = TypeError).
Proof.
  intros Hstatus Hpbs. split; [| split; [| split; [| split]]].
  - by apply sum_hours_saved_by_case_id_malformed.
  - intros Hbody. unfold payload_playbooks in Hpbs. rewrite Hbody in Hpbs. congruence.
  - intros fields Hbody Hfield. unfold payload_playbooks in Hpbs.
    rewrite Hbody in Hpbs. simpl in Hpbs. rewrite Hfield in Hpbs. congruence.
  - intros json_data Hbody Hobj. unfold payload_playbooks in Hpbs.
    rewrite Hbody in Hpbs. destruct json_data; simpl in Hpbs; congruence.
  - intros fields v Hbody Hfield Hv. unfold payload_playbooks in Hpbs.
    rewrite Hbody in Hpbs. simpl in Hpbs. rewrite Hfield in Hpbs.
    destruct Hv as [-> | [[n ->] | [b ->]]]; simpl in Hpbs; congruence.
Qed.

Lemma X5_malformed_details_raise_witness :
  let detail := λ _ : json,
    {| status_code := 200; text := "{}"; body := Some (JObj []) |} in
  let g := initial_globals example_table poc_startTime poc_endTime in
  sum_hours_saved_by_case_id detail (JNum 1) g = (emit (HttpGet (JNum 1)) g, inl KeyError).
Proof.
  intros detail g.
  apply (X5_malformed_details_raise detail (JNum 1) g KeyError); reflexivity.
Defined.

Lemma get_case_ids_200 search_response g :
  let r := search_response (startTime g) (endTime g) in
  status_code r = 200 →
  get_case_ids search_response g = (emit (HttpPost (startTime g) (endTime g)) g, search_ids r).
Proof.
  intros r Hstatus. unfold search_ids.
  unfold get_case_ids, bind, requests_post, response_json, ret, raise, lift. fold r.
  destruct (decide (status_code r = 200)) as [_ | Hne]; [| done].
  destruct (body r) as [json_data |]; [| done].
  destruct (getitem json_data "results") as [e | results]; [done |].
  by destruct (iter results) as [e | results'].
Qed.

Lemma append_ids_KeyError (results : list json) :
  Forall (λ result, ∃ fields, result = JObj fields) results →
  Exists (λ result, getitem result "id" = inl KeyError) results →
  ∀ case_id_list, append_ids results case_id_list = inl KeyError.
Proof.
  induction results as [| result rest IH]; intros Hobj Hmiss case_id_list.
  - by apply Exists_nil in Hmiss.
  - apply Forall_cons in Hobj as [[fields ->] Hrest].
    simpl. destruct (assoc "id" fields) as [v |] eqn:Hfield; [| done].
    apply Exists_cons in Hmiss as [Hhead | Htail].
    + simpl in Hhead. by rewrite Hfield in Hhead.
    + by apply IH.
Qed.

(** X6.  A case search answered with 200 and a body from which the case
    identifiers cannot be drawn ends [get_case_ids], and with it the run of
    [roi-report-poc.py], with the exception of the failing step
    ([JSONDecodeError] for a body that is not JSON, [KeyError] for an object
    without ['results'] or for a result without ['id'], whatever the results
    before it): no detail request is made, the totals are what they were and
    no report is printed. *)
Theorem X6_malformed_search_ends_the_run search_response detail_response g e :
  let r := search_response (startTime g) (endTime g) in
  let posted := emit (HttpPost (startTime g) (endTime g)) g in
  status_code r = 200 →
  search_ids r = inl e →
  get_case_ids search_response g = (posted, inl e) ∧
  main search_response detail_response g = (posted, inl e) ∧
  (body r = None → e = JSONDecodeError) ∧
  (∀ fields, body r = Some (JObj fields) → assoc "results" fields = None → e = KeyError) ∧
  (∀ fields results, body r = Some (JObj fields) →
                     assoc "results" fields = Some (JArr results) →
                     Forall (λ result, ∃ fields, result = JObj fields) results →
                     Exists (λ result, getitem result "id" = inl KeyError) results →
                     e = KeyError).
Proof.
  intros r posted Hstatus Hids.
  assert (get_case_ids search_response g = (posted, inl e)) as Hget.
  { unfold posted. rewrite <- Hids. by apply get_case_ids_200. }
  split; [done |]. split; [| split; [| split]].
  - unfold main, bind. by rewrite Hget.
  - intros Hbody. unfold search_ids in Hids. rewrite Hbody in Hids. congruence.
  - intros fields Hbody Hfield. unfold search_ids in Hids.
    rewrite Hbody in Hids. simpl in Hids. rewrite Hfield in Hids. congruence.
  - intros fields results Hbody Hfield Hobj Hmiss. unfold search_ids in Hids.
    rewrite Hbody in Hids. simpl in Hids. rewrite Hfield in Hids. simpl in Hids.
    rewrite (append_ids_KeyError results Hobj Hmiss) in Hids. congruence.
Qed.

Lemma X6_malformed_search_ends_the_run_witness :
  let search := λ _ _ : Z,
    {| status_code := 200; text := "";
       body := Some (JObj [("results"%string,
                            JArr [JObj [("id"%string, JNum 1)]; JObj []])]) |} in
  let g := initial_globals example_table poc_startTime poc_endTime in
  main search example_detail_response g =
    (emit (HttpPost poc_startTime poc_endTime) g, inl KeyError).
Proof.
  intros search g.
  apply (X6_malformed_search_ends_the_run search example_detail_response g KeyError);
    reflexivity.
Defined.

(** X7.  Whatever the response, a call of [get_case_ids] makes exactly one
    search request, for the window the globals hold, and no detail request;
    it prints one line when the status is not 200 and nothing otherwise, and
    leaves the totals, the table and the window as they were. *)
Theorem X7_case_lister_only_searches search_response g :
  let r := search_response (startTime g) (endTime g) in
  let g' := fst (get_case_ids search_response g) in
  roi_counts g' = roi_counts g ∧
  playbook_time_def_map g' = playbook_time_def_map g ∧
  startTime g' = startTime g ∧
  endTime g' = endTime g ∧
  trace g' =
    trace g ++ HttpPost (startTime g) (endTime g) ::
      (if decide (status_code r = 200) then [] else [Stdout (error_line r)]).
Proof.
  intros r g'. unfold g'.
  destruct (decide (status_code r = 200)) as [Hstatus | Hne].
  - rewrite get_case_ids_200 by done. by repeat split.
  - rewrite get_case_ids_failure by done. repeat split. simpl. by rewrite <- app_assoc.
Qed.

(** ** The requests and the lines of a run *)

Lemma is_progress_error_line r : is_progress (Stdout (error_line r)).
Proof.
  split; [done | discriminate].
Qed.

Lemma is_progress_blank : is_progress (Stdout "").
Proof. split; [done | discriminate]. Qed.

Lemma is_progress_pretty_printed d : is_progress (PrettyPrinted d).
Proof. split; [done | discriminate]. Qed.

Lemma progress_makes_no_request tail :
  Forall is_progress tail →
  detail_requests tail = [] ∧ search_requests tail = [] ∧ Stdout report_header ∉ tail.
Proof.
  induction 1 as [| ev tail [Hout Hne] _ (IHd & IHs & IHh)].
  - repeat split. apply not_elem_of_nil.
  - repeat split.
    + destruct ev; try done; simpl in *; congruence.
    + destruct ev; try done; simpl in *; congruence.
    + apply not_elem_of_cons. split; [congruence | done].
Qed.

(** Whatever the response and the outcome, a call of the aggregator adds to
    the trace its detail request followed by progress lines only, and leaves
    the table and the window as they were. *)
Lemma sum_hours_saved_by_case_id_events detail_response case_id g :
  let g' := fst (sum_hours_saved_by_case_id detail_response case_id g) in
  ∃ tail, trace g' = trace g ++ HttpGet case_id :: tail ∧ Forall is_progress tail.
Proof.
  intros g'. unfold g'.
  destruct (decide (status_code (detail_response case_id) = 200)) as [Hstatus | Hne].
  - destruct (payload_playbooks (detail_response case_id)) as [e | pbs] eqn:Hpbs.
    + rewrite (sum_hours_saved_by_case_id_malformed _ _ _ e Hstatus Hpbs).
      exists []. split; [done | constructor].
    + rewrite (sum_hours_saved_by_case_id_loop _ _ _ pbs Hstatus Hpbs).
      pose proof (for_each_add_playbook_only_roi_counts pbs (emit (HttpGet case_id) g))
        as (_ & _ & _ & Htrace).
      destruct (for_each pbs add_playbook (emit (HttpGet case_id) g)) as [g1 [e | []]];
        simpl in *.
      * exists []. split; [done | constructor].
      * exists [Stdout ""; PrettyPrinted (roi_counts g1)]. split.
        -- rewrite Htrace, <- !app_assoc. done.
        -- repeat constructor; [apply is_progress_blank | discriminate].
  - rewrite sum_hours_saved_by_case_id_failure by done.
    exists [Stdout (error_line (detail_response case_id))]. split.
    + simpl. by rewrite <- app_assoc.
    + repeat constructor. apply is_progress_error_line.
Qed.

Lemma for_each_cases_events detail_response ids : ∀ g,
  let run := for_each ids (sum_hours_saved_by_case_id detail_response) g in
  ∃ added processed,
    trace (fst run) = trace g ++ added ∧
    processed `prefix_of` ids ∧
    (snd run = inr tt → processed = ids) ∧
    detail_requests added = processed ∧
    search_requests added = [] ∧
    Stdout report_header ∉ added.
Proof.
  induction ids as [| case_id rest IH]; intros g run; unfold run; simpl.
  - exists [], []. rewrite app_nil_r. repeat split; try done. apply not_elem_of_nil.
  - unfold bind.
    destruct (sum_hours_saved_by_case_id_events detail_response case_id g)
      as (tail & Htrace & Htail).
    destruct (progress_makes_no_request tail Htail) as (Hd & Hs & Hh).
    destruct (sum_hours_saved_by_case_id detail_response case_id g) as [g1 [e | []]];
      simpl in *.
    + exists (HttpGet case_id :: tail), [case_id]. split; [done |].
      split; [apply prefix_cons, prefix_nil |]. split; [done |].
      split.
      { change (case_id :: detail_requests tail = [case_id]). by rewrite Hd. }
      split; [exact Hs |].
      apply not_elem_of_cons. split; [discriminate | done].
    + destruct (IH g1) as (added & processed & Hrun & Hprefix & Hall & Hdet & Hsearch & Hhead).
      exists (HttpGet case_id :: tail ++ added), (case_id :: processed).
      split; [rewrite Hrun, Htrace, <- app_assoc; done |].
      split; [by apply prefix_cons |].
      split; [intros Hok; by rewrite Hall |].
      split; [| split].
      * change (case_id :: detail_requests (tail ++ added) = case_id :: processed).
        unfold detail_requests in *. by rewrite omap_app, Hd, Hdet.
      * change (search_requests (tail ++ added) = []).
        unfold search_requests in *. by rewrite omap_app, Hs, Hsearch.
      * apply not_elem_of_cons. split; [discriminate |].
        by apply not_elem_of_app.
Qed.

Lemma get_case_ids_events search_response g :
  ∃ tail,
    trace (fst (get_case_ids search_response g)) =
      trace g ++ HttpPost (startTime g) (endTime g) :: tail ∧
    Forall is_progress tail.
Proof.
  destruct (decide (status_code (search_response (startTime g) (endTime g)) = 200))
    as [Hstatus | Hne].
  - rewrite get_case_ids_200 by done. exists []. split; [done | constructor].
  - rewrite get_case_ids_failure by done.
    exists [Stdout (error_line (search_response (startTime g) (endTime g)))]. split.
    + simpl. by rewrite <- app_assoc.
    + repeat constructor. apply is_progress_error_line.
Qed.

(** What a run adds to the trace, by outcome; [listed] is the list of case
    identifiers the search returned, empty when it raised. *)
Lemma main_events search_response detail_response g :
  let run := main search_response detail_response g in
  let listed := default [] (from_inr (snd (get_case_ids search_response g))) in
  ∃ added,
    search_requests added = [(startTime g, endTime g)] ∧
    (Stdout report_header ∉ added) ∧
    ((snd run = inr tt ∧
      trace (fst run) =
        trace g ++ added ++ [Stdout report_header; PrettyPrinted (roi_counts (fst run))] ∧
      detail_requests added = listed) ∨
     (∃ e, snd run = inl e ∧
           trace (fst run) = trace g ++ added ∧
           detail_requests added `prefix_of` listed)).
Proof.
  intros run listed. unfold run, listed, main, bind.
  destruct (get_case_ids_events search_response g) as (tail & Hposted & Htail).
  destruct (progress_makes_no_request tail Htail) as (Hd & Hs & Hh).
  destruct (get_case_ids search_response g) as [g1 [e | ids]]; simpl in *.
  - exists (HttpPost (startTime g) (endTime g) :: tail).
    split.
    { change ((startTime g, endTime g) :: search_requests tail = [(startTime g, endTime g)]).
      by rewrite Hs. }
    split; [apply not_elem_of_cons; split; [discriminate | done] |].
    right. exists e. split; [done |]. split; [done |].
    change (detail_requests tail `prefix_of` []). by rewrite Hd.
  - destruct (for_each_cases_events detail_response ids g1)
      as (added & processed & Hrun & Hprefix & Hall & Hdet & Hsearch & Hhead).
    exists (HttpPost (startTime g) (endTime g) :: tail ++ added).
    split.
    { change ((startTime g, endTime g) :: search_requests (tail ++ added)
              = [(startTime g, endTime g)]).
      unfold search_requests in *. by rewrite omap_app, Hs, Hsearch. }
    split.
    { apply not_elem_of_cons. split; [discriminate |]. by apply not_elem_of_app. }
    assert (detail_requests (HttpPost (startTime g) (endTime g) :: tail ++ added) = processed)
      as Hrequests.
    { change (detail_requests (tail ++ added) = processed).
      unfold detail_requests in *. by rewrite omap_app, Hd, Hdet. }
    destruct (for_each ids (sum_hours_saved_by_case_id detail_response) g1)
      as [g2 [e | []]]; simpl in *.
    + right. exists e. split; [done |].
      split; [rewrite Hrun, Hposted, <- app_assoc; done |].
      by rewrite Hrequests.
    + left. split; [done |].
      split; [rewrite Hrun, Hposted, <- !app_assoc; done |].
      rewrite Hrequests. by apply Hall.
Qed.

(** X8.  Whatever the responses and the outcome, a run of
    [roi-report-poc.py] makes exactly one search request, for the window of
    the globals, and its detail requests are, in order and without
    repetition, a prefix of the case identifiers the search listed: all of
    them when the run completes. *)
Theorem X8_one_search_one_request_per_case search_response detail_response g :
  let run := main search_response detail_response g in
  let listed := default [] (from_inr (snd (get_case_ids search_response g))) in
  ∃ added,
    trace (fst run) = trace g ++ added ∧
    search_requests added = [(startTime g, endTime g)] ∧
    detail_requests added `prefix_of` listed ∧
    (snd run = inr tt → detail_requests added = listed).
Proof.
  intros run listed.
  destruct (main_events search_response detail_response g)
    as (added & Hsearch & Hhead & [(Hok & Htrace & Hdet) | (e & Herr & Htrace & Hdet)]).
  - exists (added ++ [Stdout report_header; PrettyPrinted (roi_counts (fst run))]).
    split; [done |].
    unfold search_requests, detail_requests in *. rewrite !omap_app. simpl.
    rewrite !app_nil_r. split; [done |]. split; [by rewrite Hdet | done].
  - exists added. split; [done |]. split; [done |]. split; [done |].
    fold run in Herr. rewrite Herr. discriminate.
Qed.

Lemma X8_one_search_one_request_per_case_witness :
  let g := initial_globals example_table poc_startTime poc_endTime in
  let run := main example_search_response example_detail_response g in
  ∃ added,
    trace (fst run) = trace g ++ added ∧
    search_requests added = [(poc_startTime, poc_endTime)] ∧
    detail_requests added = [JNum 1; JNum 2].
Proof.
  intros g run.
  destruct (X8_one_search_one_request_per_case example_search_response
              example_detail_response g) as (added & Htrace & Hsearch & _ & Hall).
  exists added. split; [exact Htrace |]. split; [exact Hsearch |].
  apply Hall. vm_compute. reflexivity.
Defined.

(** X9.  When a run of [roi-report-poc.py] completes, the last two things
    it writes are the header of the report and the totals as they are at the
    end, and the header is written nowhere before. *)
Theorem X9_report_closes_a_completed_run search_response detail_response g :
  let run := main search_response detail_response g in
  snd run = inr tt →
  ∃ before,
    trace (fst run) =
      trace g ++ before ++ [Stdout report_header; PrettyPrinted (roi_counts (fst run))] ∧
    Stdout report_header ∉ before.
Proof.
  intros run Hok.
  destruct (main_events search_response detail_response g)
    as (added & Hsearch & Hhead & [(_ & Htrace & _) | (e & Herr & _)]).
  - by exists added.
  - fold run in Herr. congruence.
Qed.

Lemma X9_report_closes_a_completed_run_witness :
  let g := initial_globals example_table poc_startTime poc_endTime in
  let run := main example_search_response example_detail_response g in
  ∃ before,
    trace (fst run) =
      trace g ++ before ++ [Stdout report_header; PrettyPrinted (roi_counts (fst run))] ∧
    Stdout report_header ∉ before.
Proof.
  intros g run.
  apply (X9_report_closes_a_completed_run example_search_response example_detail_response g).
  vm_compute. reflexivity.
Defined.

(** X10.  When a run of [roi-report-poc.py] ends with an exception, the
    report is not written: the header appears nowhere in what the run added
    to the trace. *)
Theorem X10_no_report_after_an_exception search_response detail_response g e :
  let run := main search_response detail_response g in
  snd run = inl e →
  ∃ added, trace (fst run) = trace g ++ added ∧ Stdout report_header ∉ added.
Proof.
  intros run Herr.
  destruct (main_events search_response detail_response g)
    as (added & Hsearch & Hhead & [(Hok & _) | (e' & _ & Htrace & _)]).
  - fold run in Hok. congruence.
  - by exists added.
Qed.

Lemma X10_no_report_after_an_exception_witness :
  let detail := λ _ : json, case_details [JObj []] in
  let g := initial_globals example_table poc_startTime poc_endTime in
  let run := main example_search_response detail g in
  ∃ added, trace (fst run) = trace g ++ added ∧ Stdout report_header ∉ added.
Proof.
  intros detail g run.
  apply (X10_no_report_after_an_exception example_search_response detail g KeyError).
  vm_compute. reflexivity.
Defined.

(** ** The totals of a whole run *)

Lemma get_case_ids_keeps_globals search_response g :
  let g' := fst (get_case_ids search_response g) in
  roi_counts g' = roi_counts g ∧ playbook_time_def_map g' = playbook_time_def_map g.
Proof.
  intros g'. unfold g'.
  destruct (decide (status_code (search_response (startTime g) (endTime g)) = 200))
    as [Hstatus | Hne].
  - by rewrite get_case_ids_200.
  - by rewrite get_case_ids_failure.
Qed.

Lemma sum_hours_saved_by_case_id_delivers detail_response case_id g ks d :
  case_delivers (detail_response case_id) ks →
  playbook_time_def_map g !! KStr unconfigured = Some d →
  let run := sum_hours_saved_by_case_id detail_response case_id g in
  snd run = inr tt ∧
  roi_counts (fst run) = foldl (after_increment (playbook_time_def_map g) d) (roi_counts g) ks ∧
  playbook_time_def_map (fst run) = playbook_time_def_map g.
Proof.
  intros Hks Hdef run. unfold run. unfold case_delivers in Hks.
  destruct (decide (status_code (detail_response case_id) = 200)) as [Hstatus | Hne].
  - by rewrite (sum_hours_saved_by_case_id_success _ _ _ ks d Hstatus Hks Hdef).
  - subst ks. by rewrite sum_hours_saved_by_case_id_failure.
Qed.

(** A loop over cases whose body accumulates what each case delivers
    accumulates what all of them deliver, in the order of the cases. *)
Lemma for_each_accumulates (detail_response : json → response) (body : json → M unit)
    (table : pydict) (d : Z) :
  (∀ case_id ks g,
     case_delivers (detail_response case_id) ks →
     playbook_time_def_map g = table →
     snd (body case_id g) = inr tt ∧
     roi_counts (fst (body case_id g)) = foldl (after_increment table d) (roi_counts g) ks ∧
     playbook_time_def_map (fst (body case_id g)) = table) →
  ∀ ids kss g,
    Forall2 (λ case_id ks, case_delivers (detail_response case_id) ks) ids kss →
    playbook_time_def_map g = table →
    snd (for_each ids body g) = inr tt ∧
    roi_counts (fst (for_each ids body g)) =
      foldl (after_increment table d) (roi_counts g) (concat kss) ∧
    playbook_time_def_map (fst (for_each ids body g)) = table.
Proof.
  intros Hbody ids kss g Hall. revert g.
  induction Hall as [| case_id ks ids kss Hks _ IH]; intros g Htable; simpl; [done |].
  unfold bind. destruct (Hbody case_id ks g Hks Htable) as (Hok & Hroi & Htable').
  destruct (body case_id g) as [g1 [e | []]]; simpl in *; [done |].
  destruct (IH g1 Htable') as (Hok' & Hroi' & Htable'').
  split; [done |]. split; [| done].
  by rewrite Hroi', Hroi, foldl_app.
Qed.

(** X11.  When the search lists the cases [ids], the table has the default
    key, and every case either is answered with a status other than 200 or
    delivers hashable names, the run of [roi-report-poc.py] completes and its
    final totals are those of one loop over the names of all the cases put
    end to end: the entry of a playbook depends only on the entry it had and
    on how many cards name it, not on how the cards are spread over the
    cases nor on the order of the cases. *)
Theorem X11_totals_of_a_run search_response detail_response g ids kss d :
  snd (get_case_ids search_response g) = inr ids →
  Forall2 (λ case_id ks, case_delivers (detail_response case_id) ks) ids kss →
  playbook_time_def_map g !! KStr unconfigured = Some d →
  let run := main search_response detail_response g in
  snd run = inr tt ∧
  ∀ P, roi_counts (fst run) !! P =
       entry_after (playbook_time_def_map g) d (roi_counts g !! P) P
         (occurrences P (concat kss)).
Proof.
  intros Hids Hall Hdef run. unfold run, main, bind.
  destruct (get_case_ids_keeps_globals search_response g) as [Hroi Htable].
  destruct (get_case_ids search_response g) as [g1 [e | ids']]; simpl in *; [done |].
  injection Hids as ->.
  destruct (for_each_accumulates detail_response
              (sum_hours_saved_by_case_id detail_response) (playbook_time_def_map g) d)
    with (ids := ids) (kss := kss) (g := g1) as (Hok & Hfinal & _); try done.
  { intros case_id ks g0 Hks Htable0.
    rewrite <- Htable0 in Hdef |- *.
    by apply sum_hours_saved_by_case_id_delivers. }
  destruct (for_each ids (sum_hours_saved_by_case_id detail_response) g1)
    as [g2 [e | []]]; simpl in *; [done |].
  split; [done |]. intros P.
  by rewrite Hfinal, Hroi, lookup_foldl_entry_after.
Qed.

Lemma X11_totals_of_a_run_witness :
  let g := initial_globals example_table poc_startTime poc_endTime in
  let run := main example_search_response example_detail_response g in
  snd run = inr tt ∧
  ∀ P, roi_counts (fst run) !! P =
       entry_after example_table 10 (roi_counts g !! P) P
         (occurrences P (concat [[KStr "A"; KStr "B"]; [KStr "A"]])).
Proof.
  intros g.
  apply (X11_totals_of_a_run example_search_response example_detail_response g
           [JNum 1; JNum 2] [[KStr "A"; KStr "B"]; [KStr "A"]] 10).
  - reflexivity.
  - repeat constructor.
  - reflexivity.
Defined.

(** ** One day of [roi-report-seaborn.py] *)

(** The body of the loop over the cases of a day: sleep, then aggregate. *)
Lemma throttled_body_eq detail_response case_id g :
  ((λ g, (emit Sleep g, inr tt)) ;;; sum_minutes_saved_by_case_id detail_response case_id) g =
  sum_hours_saved_by_case_id detail_response case_id (emit Sleep g).
Proof. reflexivity. Qed.

Lemma run_day_unfold search_response detail_response utcnow i g :
  run_day search_response detail_response utcnow i g =
    match get_case_ids search_response
            (set_roi_counts ∅
               (set_window (fst (day_window utcnow i)) (snd (day_window utcnow i)) g)) with
    | (g1, inr ids) =>
        match for_each ids
                (λ case_id, (λ g, (emit Sleep g, inr tt)) ;;;
                            sum_minutes_saved_by_case_id detail_response case_id) g1 with
        | (g2, inr _) => (g2, inr (roi_counts g2))
        | (g2, inl e) => (g2, inl e)
        end
    | (g1, inl e) => (g1, inl e)
    end.
Proof. reflexivity. Qed.

(** X12.  A day of [roi-report-seaborn.py] starts from empty totals: when
    the search of the day lists the cases [ids], the table has the default
    key, and every case is answered with a status other than 200 or delivers
    hashable names, the day completes and its dictionary is what one loop
    over the names of all its cases leaves on an empty dictionary, whatever
    [roi_counts] held before the day; the table is untouched. *)
Theorem X12_day_starts_from_empty_totals search_response detail_response utcnow i g ids kss d :
  let g0 := set_roi_counts ∅
              (set_window (fst (day_window utcnow i)) (snd (day_window utcnow i)) g) in
  snd (get_case_ids search_response g0) = inr ids →
  Forall2 (λ case_id ks, case_delivers (detail_response case_id) ks) ids kss →
  playbook_time_def_map g !! KStr unconfigured = Some d →
  ∃ g' day_counts,
    run_day search_response detail_response utcnow i g = (g', inr day_counts) ∧
    roi_counts g' = day_counts ∧
    playbook_time_def_map g' = playbook_time_def_map g ∧
    ∀ P, day_counts !! P =
         entry_after (playbook_time_def_map g) d None P (occurrences P (concat kss)).
Proof.
  intros g0 Hids Hall Hdef. rewrite run_day_unfold. fold g0.
  destruct (get_case_ids_keeps_globals search_response g0) as [Hroi Htable].
  destruct (get_case_ids search_response g0) as [g1 [e | ids']]; simpl in *; [done |].
  injection Hids as ->.
  destruct (for_each_accumulates detail_response
              (λ case_id, (λ g, (emit Sleep g, inr tt)) ;;;
                          sum_minutes_saved_by_case_id detail_response case_id)
              (playbook_time_def_map g) d)
    with (ids := ids) (kss := kss) (g := g1) as (Hok & Hfinal & Htable'); try done.
  { intros case_id ks g2 Hks Htable2. rewrite throttled_body_eq.
    rewrite <- Htable2 in Hdef |- *.
    by apply (sum_hours_saved_by_case_id_delivers detail_response case_id (emit Sleep g2)). }
  destruct (for_each ids _ g1) as [g2 [e | []]]; simpl in *; [done |].
  exists g2, (roi_counts g2). split; [done |]. split; [done |]. split; [done |].
  intros P. rewrite Hfinal, Hroi, lookup_foldl_entry_after. by rewrite lookup_empty.
Qed.

Lemma X12_day_starts_from_empty_totals_witness :
  let utcnow := λ _ : nat, noon_4_november_2024 in
  let g := set_roi_counts (<[KStr "A" := 1000]> ∅) (initial_globals example_table 0 0) in
  ∃ g' day_counts,
    run_day example_search_response example_detail_response utcnow 0 g = (g', inr day_counts) ∧
    roi_counts g' = day_counts ∧
    playbook_time_def_map g' = playbook_time_def_map g ∧
    ∀ P, day_counts !! P =
         entry_after example_table 10 None P
           (occurrences P (concat [[KStr "A"; KStr "B"]; [KStr "A"]])).
Proof.
  intros utcnow g.
  apply (X12_day_starts_from_empty_totals example_search_response example_detail_response
           utcnow 0 g [JNum 1; JNum 2] [[KStr "A"; KStr "B"]; [KStr "A"]] 10).
  - reflexivity.
  - repeat constructor.
  - reflexivity.
Defined.

Lemma progress_never_sleeps tail : Forall is_progress tail → sleeps tail = [].
Proof.
  induction 1 as [| ev tail [Hout _] _ IH]; [done |].
  destruct ev; try done; exact IH.
Qed.

Lemma throttled_progress tail rest :
  Forall is_progress tail → throttled (tail ++ rest) = throttled rest.
Proof.
  induction 1 as [| ev tail [Hout _] _ IH]; [done |].
  destruct ev; try done; simpl; exact IH.
Qed.

Lemma for_each_throttled detail_response ids : ∀ g,
  let run := for_each ids
               (λ case_id, (λ g, (emit Sleep g, inr tt)) ;;;
                           sum_minutes_saved_by_case_id detail_response case_id) g in
  ∃ added,
    trace (fst run) = trace g ++ added ∧
    throttled added = true ∧
    search_requests added = [] ∧
    length (detail_requests added) = length (sleeps added).
Proof.
  induction ids as [| case_id rest IH]; intros g run; unfold run.
  - exists []. simpl. by rewrite app_nil_r.
  - cbn [for_each]. unfold bind at 1. rewrite throttled_body_eq.
    destruct (sum_hours_saved_by_case_id_events detail_response case_id (emit Sleep g))
      as (tail & Htrace & Htail).
    destruct (progress_makes_no_request tail Htail) as (Hd & Hs & _).
    pose proof (progress_never_sleeps tail Htail) as Hsleep.
    destruct (sum_hours_saved_by_case_id detail_response case_id (emit Sleep g))
      as [g1 [e | []]]; simpl in Htrace.
    + exists (Sleep :: HttpGet case_id :: tail).
      split; [cbn [fst]; by rewrite Htrace, <- app_assoc |].
      split; [cbn [throttled]; by rewrite <- (app_nil_r tail), (throttled_progress tail []) |].
      split; [exact Hs |].
      change (length (case_id :: detail_requests tail) = length (tt :: sleeps tail)).
      by rewrite Hd, Hsleep.
    + destruct (IH g1) as (added & Hrun & Hthrottled & Hsearch & Hcount).
      exists (Sleep :: HttpGet case_id :: tail ++ added).
      split; [by rewrite Hrun, Htrace, <- !app_assoc |].
      split; [cbn [throttled]; by rewrite throttled_progress |].
      split.
      { change (search_requests (tail ++ added) = []).
        unfold search_requests in *. by rewrite omap_app, Hs, Hsearch. }
      change (length (case_id :: detail_requests (tail ++ added)) =
              length (tt :: sleeps (tail ++ added))).
      unfold detail_requests, sleeps in *. rewrite !omap_app, Hd, Hsleep. simpl.
      by rewrite Hcount.
Qed.

Lemma run_day_events search_response detail_response utcnow i g :
  ∃ added,
    trace (fst (run_day search_response detail_response utcnow i g)) =
      trace g ++ HttpPost (fst (day_window utcnow i)) (snd (day_window utcnow i)) :: added ∧
    throttled added = true ∧
    search_requests added = [] ∧
    length (detail_requests added) = length (sleeps added).
Proof.
  rewrite run_day_unfold.
  set (g0 := set_roi_counts ∅ (set_window _ _ g)).
  destruct (get_case_ids_events search_response g0) as (tail & Htrace & Htail).
  destruct (progress_makes_no_request tail Htail) as (Hd & Hs & _).
  pose proof (progress_never_sleeps tail Htail) as Hsleep.
  destruct (get_case_ids search_response g0) as [g1 [e | ids]]; simpl in Htrace.
  - exists tail. split; [done |].
    split; [by rewrite <- (app_nil_r tail), (throttled_progress tail []) |].
    split; [done |]. by rewrite Hd, Hsleep.
  - destruct (for_each_throttled detail_response ids g1)
      as (added & Hrun & Hthrottled & Hsearch & Hcount).
    exists (tail ++ added).
    assert (throttled (tail ++ added) = true ∧
            search_requests (tail ++ added) = [] ∧
            length (detail_requests (tail ++ added)) = length (sleeps (tail ++ added)))
      as Hfacts.
    { split; [by rewrite throttled_progress |]. split.
      - unfold search_requests in *. by rewrite omap_app, Hs, Hsearch.
      - unfold detail_requests, sleeps in *. by rewrite !omap_app, Hd, Hsleep. }
    destruct (for_each ids _ g1) as [g2 [e | []]]; simpl in *;
      (split; [rewrite Hrun, Htrace, <- app_assoc; done | done]).
Qed.

(** X13.  Whatever the responses and the outcome, a day of
    [roi-report-seaborn.py] makes one search request, for the window of the
    day, and then only detail requests each of which comes right after a
    sleep: there are as many sleeps as detail requests. *)
Theorem X13_every_detail_request_follows_a_sleep search_response detail_response utcnow i g :
  ∃ added,
    trace (fst (run_day search_response detail_response utcnow i g)) =
      trace g ++ HttpPost (fst (day_window utcnow i)) (snd (day_window utcnow i)) :: added ∧
    throttled added = true ∧
    search_requests added = [] ∧
    length (detail_requests added) = length (sleeps added).
Proof.
  destruct (run_day_events search_response detail_response utcnow i g)
    as (added & Htrace & Hthrottled & Hsearch & Hcount).
  exists added. split; [exact Htrace |]. split; [exact Hthrottled |].
  split; [exact Hsearch | exact Hcount].
Qed.

(** ** The days of [roi-report-seaborn.py] *)

(** X14.  The window of iteration [i] ends at the midnight (UTC) at or
    before the reading of the clock in that iteration and starts [i + 1]
    whole days earlier, so both ends are midnights; iterations that read the
    clock on the same day have the same end, and a later one contains the
    window of an earlier one. *)
Theorem X14_window_of_an_iteration utcnow i j :
  let day := usec_per_day in
  let w := day_window utcnow i in
  snd w `mod` day = 0 ∧
  fst w `mod` day = 0 ∧
  snd w ≤ utcnow i < snd w + day ∧
  snd w - fst w = (Z.of_nat i + 1) * day ∧
  (midnight (utcnow i) = midnight (utcnow j) → (i ≤ j)%nat →
   snd (day_window utcnow j) = snd w ∧ fst (day_window utcnow j) ≤ fst w).
Proof.
  intros day w. unfold w, day, day_window, timedelta_days. simpl.
  destruct (midnight_is_start_of_day (utcnow i)) as [Hmod Hbounds].
  split; [done |]. split; [| split; [done |]; split].
  - rewrite Zminus_mod, Hmod, Z_mod_mult. done.
  - lia.
  - intros Hsame Hle. rewrite <- Hsame. unfold usec_per_day. lia.
Qed.

Lemma X14_window_of_an_iteration_witness :
  let utcnow := λ _ : nat, noon_4_november_2024 in
  snd (day_window utcnow 2) = snd (day_window utcnow 0) ∧
  fst (day_window utcnow 2) ≤ fst (day_window utcnow 0).
Proof.
  intros utcnow.
  apply (X14_window_of_an_iteration utcnow 0 2); [reflexivity | lia].
Defined.

Lemma lookup_all_roi_counts_last utcnow days : ∀ counts acc j i c,
  days !! j = Some i →
  counts !! j = Some c →
  (∀ j' i', (j < j')%nat → days !! j' = Some i' →
            fst (day_window utcnow i') ≠ fst (day_window utcnow i)) →
  all_roi_counts (record_days utcnow days counts acc) !! fst (day_window utcnow i) = Some c.
Proof.
  induction days as [| i0 rest IH]; intros [| c0 cs] acc j i c Hday Hcount Hlater;
    try done.
  destruct j as [| j]; simpl in *.
  - injection Hday as ->. injection Hcount as ->.
    rewrite lookup_all_roi_counts_other.
    + simpl. by rewrite lookup_insert_eq.
    + intros (i' & Heq & Hin)%list_elem_of_fmap.
      apply list_elem_of_lookup in Hin as [j' Hj'].
      by apply (Hlater (S j') i' ltac:(lia) Hj').
  - apply (IH cs _ j i c Hday Hcount).
    intros j' i' Hlt Hj'. apply (Hlater (S j') i' ltac:(lia) Hj').
Qed.

Lemma main_days_daily_counts search_response detail_response utcnow n g g' result :
  main_days search_response detail_response utcnow n g = (g', inr result) →
  ∃ counts,
    daily_counts search_response detail_response utcnow (seq 0 n) g = (g', inr counts) ∧
    length counts = n ∧
    result = record_days utcnow (seq 0 n) counts empty_report.
Proof.
  unfold main_days. rewrite day_loop_daily_counts.
  destruct (daily_counts search_response detail_response utcnow (seq 0 n) g)
    as [g1 [e | counts]] eqn:Hdaily; [done |].
  intros [= <- <-]. exists counts.
  pose proof (daily_counts_length _ _ _ _ _ _ _ Hdaily) as Hlen.
  rewrite length_seq in Hlen. done.
Qed.

(** X15.  When the loop over [n] days completes with a clock that stayed on
    one day, [all_roi_counts] holds, under the start date of every
    iteration, the dictionary of that iteration: the [n] days are filed
    under [n] different dates. *)
Theorem X15_every_day_is_filed search_response detail_response utcnow now n g g' result :
  (∀ i, midnight (utcnow i) = midnight now) →
  main_days search_response detail_response utcnow n g = (g', inr result) →
  ∃ counts,
    daily_counts search_response detail_response utcnow (seq 0 n) g = (g', inr counts) ∧
    length counts = n ∧
    ∀ i day_counts,
      counts !! i = Some day_counts →
      all_roi_counts result !! fst (day_window utcnow i) = Some day_counts.
Proof.
  intros Hclock Hmain.
  destruct (main_days_daily_counts _ _ _ _ _ _ _ Hmain) as (counts & Hdaily & Hlen & ->).
  exists counts. split; [done |]. split; [done |].
  intros i c Hc.
  apply (lookup_all_roi_counts_last utcnow (seq 0 n) counts empty_report i i c).
  - apply lookup_seq. split; [done |]. apply lookup_lt_Some in Hc. lia.
  - done.
  - intros j' i' Hlt [-> _]%lookup_seq.
    unfold day_window, timedelta_days, usec_per_day. simpl. rewrite !Hclock. lia.
Qed.

Lemma X15_every_day_is_filed_witness :
  let utcnow := λ _ : nat, noon_4_november_2024 in
  let g := initial_globals example_table 0 0 in
  let run := main_days example_search_response example_detail_response utcnow 3 g in
  let result := default empty_report (from_inr (snd run)) in
  ∃ counts,
    daily_counts example_search_response example_detail_response utcnow (seq 0 3) g
      = (fst run, inr counts) ∧
    length counts = 3%nat ∧
    ∀ i day_counts,
      counts !! i = Some day_counts →
      all_roi_counts result !! fst (day_window utcnow i) = Some day_counts.
Proof.
  intros utcnow g run result.
  apply (X15_every_day_is_filed example_search_response example_detail_response
           utcnow noon_4_november_2024 3 g (fst run) result).
  - reflexivity.
  - change (run = (fst run, inr result)).
    assert (is_Some (from_inr (snd run))) as Hreturns by by_evaluation.
    unfold result. clearbody run.
    destruct run as [g' [e | returned]]; [by destruct Hreturns | reflexivity].
Defined.



(** ** The grand total and the whole run of [roi-report-seaborn.py] *)

(** X17.  Adding a day's dictionary into the grand total (lines 170-174)
    keeps every key of both, and the order in which two days are added does
    not matter; adding an empty day changes nothing. *)
Theorem X17_adding_days_commutes (a b total : pydict) :
  update_total a (update_total b total) = update_total b (update_total a total) ∧
  update_total ∅ total = total ∧
  ∀ P, is_Some (update_total a total !! P) ↔ is_Some (total !! P) ∨ is_Some (a !! P).
Proof.
  split; [| split].
  - apply map_eq. intros P. rewrite !lookup_update_total.
    destruct (total !! P), (a !! P), (b !! P); f_equal; lia.
  - apply map_eq. intros P. rewrite lookup_update_total, lookup_empty.
    by destruct (total !! P).
  - intros P. rewrite lookup_update_total.
    destruct (total !! P), (a !! P); split; intros H; try done; eauto.
    + by destruct H as [[? ?] | [? ?]].
Qed.



Lemma day_loop_events search_response detail_response utcnow days : ∀ acc g,
  let run := day_loop search_response detail_response utcnow days acc g in
  ∃ added started,
    trace (fst run) = trace g ++ added ∧
    started `prefix_of` days ∧
    (is_Some (from_inr (snd run)) → started = days) ∧
    search_requests added = day_window utcnow <$> started ∧
    length (detail_requests added) = length (sleeps added).
Proof.
  induction days as [| i rest IH]; intros acc g run; unfold run.
  - exists [], []. simpl. by rewrite app_nil_r.
  - cbn [day_loop]. unfold bind.
    destruct (run_day_events search_response detail_response utcnow i g)
      as (added & Htrace & _ & Hsearch & Hcount).
    destruct (run_day search_response detail_response utcnow i g) as [g1 [e | c]];
      cbn [fst] in Htrace.
    + exists (HttpPost (fst (day_window utcnow i)) (snd (day_window utcnow i)) :: added), [i].
      split; [done |]. split; [apply prefix_cons, prefix_nil |].
      split; [by intros [? ?] |]. split; [| exact Hcount].
      change ((fst (day_window utcnow i), snd (day_window utcnow i)) :: search_requests added
              = [day_window utcnow i]).
      rewrite Hsearch. f_equal; symmetry; apply surjective_pairing.
    + destruct (IH (record_day utcnow i c acc) g1)
        as (added' & started & Hrun & Hprefix & Hall & Hsearch' & Hcount').
      exists (HttpPost (fst (day_window utcnow i)) (snd (day_window utcnow i))
              :: added ++ added'), (i :: started).
      split; [rewrite Hrun, Htrace, <- app_assoc; done |].
      split; [by apply prefix_cons |].
      split; [intros Hok; by rewrite Hall |].
      split.
      * change ((fst (day_window utcnow i), snd (day_window utcnow i))
                :: search_requests (added ++ added') = day_window utcnow <$> i :: started).
        unfold search_requests in *. rewrite omap_app, Hsearch, Hsearch', app_nil_l, fmap_cons.
        f_equal; symmetry; apply surjective_pairing.
      * change (length (detail_requests (added ++ added')) = length (sleeps (added ++ added'))).
        unfold detail_requests, sleeps in *. rewrite !omap_app, !length_app. lia.
Qed.

(** X19.  Whatever the responses, a run of the loop over [n] days makes its
    search requests for the windows of the iterations 0, 1, ... in order,
    one per iteration started and all [n] of them when the loop completes,
    and over the whole run there are as many sleeps as detail requests. *)
Theorem X19_one_search_per_day search_response detail_response utcnow n g :
  let run := main_days search_response detail_response utcnow n g in
  ∃ added started,
    trace (fst run) = trace g ++ added ∧
    started `prefix_of` seq 0 n ∧
    (is_Some (from_inr (snd run)) → started = seq 0 n) ∧
    search_requests added = day_window utcnow <$> started ∧
    length (detail_requests added) = length (sleeps added).
Proof.
  intros run. unfold run, main_days.
  destruct (day_loop_events search_response detail_response utcnow (seq 0 n) empty_report g)
    as (added & started & Htrace & Hprefix & Hall & Hsearch & Hcount).
  exists added, started. split; [exact Htrace |]. split; [exact Hprefix |].
  split; [exact Hall |]. split; [exact Hsearch | exact Hcount].
Qed.

Lemma X19_one_search_per_day_witness :
  let utcnow := λ _ : nat, noon_4_november_2024 in
  let g := initial_globals example_table 0 0 in
  let run := main_days example_search_response example_detail_response utcnow 3 g in
  ∃ added,
    trace (fst run) = trace g ++ added ∧
    search_requests added = day_window utcnow <$> seq 0 3 ∧
    length (detail_requests added) = length (sleeps added).
Proof.
  intros utcnow g run.
  destruct (X19_one_search_per_day example_search_response example_detail_response utcnow 3 g)
    as (added & started & Htrace & _ & Hall & Hsearch & Hcount).
  exists added. split; [exact Htrace |]. split; [| exact Hcount].
  rewrite Hsearch. f_equal. apply Hall. by_evaluation.
Defined.

(** ** Empty answers *)

(** X20.  A case answered with 200 whose ['alertCards'] is empty (an empty
    array, and also an empty object or an empty string, which Python
    iterates without complaint) completes with the totals unchanged, prints
    the two progress lines all the same, and does not need the default key
    of the table. *)
Theorem X20_case_without_cards detail_response case_id g fields v :
  status_code (detail_response case_id) = 200 →
  body (detail_response case_id) = Some (JObj fields) →
  assoc "alertCards" fields = Some v →
  v = JArr [] ∨ v = JObj [] ∨ v = JStr "" →
  sum_hours_saved_by_case_id detail_response case_id g =
    (emit (PrettyPrinted (roi_counts g)) (emit (Stdout "") (emit (HttpGet case_id) g)), inr tt).
Proof.
  intros Hstatus Hbody Hfield Hempty.
  rewrite (sum_hours_saved_by_case_id_loop _ _ _ [] Hstatus); [done |].
  unfold payload_playbooks. rewrite Hbody. simpl. rewrite Hfield.
  by destruct Hempty as [-> | [-> | ->]].
Qed.

Lemma X20_case_without_cards_witness :
  let detail := λ _ : json, case_details [] in
  let g := set_roi_counts (<[KStr "A" := 30]> ∅) (initial_globals ∅ poc_startTime poc_endTime) in
  sum_hours_saved_by_case_id detail (JNum 1) g =
    (emit (PrettyPrinted (roi_counts g)) (emit (Stdout "") (emit (HttpGet (JNum 1)) g)), inr tt).
Proof.
  intros detail g.
  apply (X20_case_without_cards detail (JNum 1) g [("alertCards"%string, JArr [])] (JArr []));
    try reflexivity.
  by left.
Defined.

(** X21.  A case search answered with 200 and no result makes the run of
    [roi-report-poc.py] complete without a detail request: it prints the
    header and the totals it started with. *)
Theorem X21_search_without_results search_response detail_response g :
  let r := search_response (startTime g) (endTime g) in
  status_code r = 200 →
  search_ids r = inr [] →
  main search_response detail_response g =
    (emit (PrettyPrinted (roi_counts g))
       (emit (Stdout report_header) (emit (HttpPost (startTime g) (endTime g)) g)),
     inr tt).
Proof.
  intros r Hstatus Hids. unfold main, bind.
  rewrite get_case_ids_200 by done. fold r. rewrite Hids. reflexivity.
Qed.

Lemma X21_search_without_results_witness :
  let search := λ _ _ : Z,
    {| status_code := 200; text := "";
       body := Some (JObj [("results"%string, JArr [])]) |} in
  let g := initial_globals example_table poc_startTime poc_endTime in
  main search example_detail_response g =
    (emit (PrettyPrinted (roi_counts g))
       (emit (Stdout report_header) (emit (HttpPost poc_startTime poc_endTime) g)),
     inr tt).
Proof.
  intros search g.
  apply (X21_search_without_results search example_detail_response g); reflexivity.
Defined.

(** X22.  In [roi-report-seaborn.py], a day whose search is answered with a
    status other than 200 is not an error: the day prints the error line,
    makes no detail request, yields the empty dictionary, which is filed
    under the day's start date, and leaves the grand total as it was. *)
Theorem X22_day_with_failed_search search_response detail_response utcnow i g acc :
  let s := fst (day_window utcnow i) in
  let e := snd (day_window utcnow i) in
  status_code (search_response s e) ≠ 200 →
  run_day search_response detail_response utcnow i g =
    (emit (Stdout (error_line (search_response s e)))
       (emit (HttpPost s e) (set_roi_counts ∅ (set_window s e g))),
     inr ∅) ∧
  all_roi_counts (record_day utcnow i ∅ acc) !! s = Some ∅ ∧
  total_minutes_saved (record_day utcnow i ∅ acc) = total_minutes_saved acc.
Proof.
  intros s e Hstatus. split; [| split].
  - rewrite run_day_unfold. fold s e.
    rewrite get_case_ids_failure by done. reflexivity.
  - unfold record_day. simpl. fold s. by rewrite lookup_insert_eq.
  - unfold record_day. simpl. apply map_eq. intros P.
    rewrite lookup_update_total, lookup_empty.
    by destruct (total_minutes_saved acc !! P).
Qed.

Lemma X22_day_with_failed_search_witness :
  let utcnow := λ _ : nat, noon_4_november_2024 in
  let g := initial_globals example_table 0 0 in
  let s := fst (day_window utcnow 0) in
  let e := snd (day_window utcnow 0) in
  run_day (λ _ _, unavailable) example_detail_response utcnow 0 g =
    (emit (Stdout (error_line unavailable))
       (emit (HttpPost s e) (set_roi_counts ∅ (set_window s e g))),
     inr ∅) ∧
  all_roi_counts (record_day utcnow 0 ∅ empty_report) !! s = Some ∅ ∧
  total_minutes_saved (record_day utcnow 0 ∅ empty_report) = total_minutes_saved empty_report.
Proof.
  intros utcnow g s e.
  apply (X22_day_with_failed_search (λ _ _, unavailable) example_detail_response utcnow 0 g
           empty_report).
  vm_compute. discriminate.
Defined.
